(** * Semantle client: presentation, transport and session controller

    A shallow embedding of the word-guessing client:
    - [services/gameService] (class [GameService]): the HTTP transport;
    - [app/(tabs)/index.tsx] (component [SemantleGame]): the controller
      state held in React hooks, its event handlers and the pure
      presentation helpers.

    [index.tsx] is present in two revisions.  The later one (with clues
    and server-side percentiles) is the one embedded at top level; where
    the earlier one differs on a function considered here it is kept in
    [Module Rev1].

    Conventions of the embedding.
    - A JavaScript string is the list of its UTF-16 code units.
    - A JavaScript number that is known to be finite is a rational [Q]
      (every finite double is one, and [>=], [-] followed by a sign test
      agree with the exact operations on finite doubles); integer-valued
      fields are [Z].  Where the code computes with numbers
      (the percentile of the earlier revision) the operations are those
      of binary64 floats.
    - An [async] function is a computation in the monad [Async]: it reads
      the outcomes of the HTTP exchanges from an environment, threads the
      hook state and the list of observable effects, and ends with a value
      or a thrown exception. *)

From Stdlib Require Import ZArith NArith QArith List String Ascii Bool Lia.
From Stdlib Require Import Qround Lqa Permutation Sorted DecimalString.
From Stdlib Require Import Floats.
Import ListNotations.

Local Open Scope Z_scope.

(* ================================================================== *)
(** ** JavaScript strings *)

Definition jsstring : Type := list N.

(** UTF-16 emission of one code point. *)
Definition utf16_units (cp : N) : jsstring :=
  if (cp <? 0x10000)%N then [cp]
  else let c := (cp - 0x10000)%N in
       [(0xD800 + c / 0x400)%N; (0xDC00 + c mod 0x400)%N].

(** Decoder for the (UTF-8) source literals: [acc] is the code point being
    assembled and [k] the number of continuation bytes still expected. *)
Fixpoint utf16_of_utf8 (acc : N) (k : nat) (bs : list N) : jsstring :=
  match bs with
  | [] => []
  | b :: bs' =>
      match k with
      | O =>
          if (b <? 0x80)%N then b :: utf16_of_utf8 0%N 0%nat bs'
          else if (b <? 0xE0)%N then utf16_of_utf8 (N.land b 0x1F) 1%nat bs'
          else if (b <? 0xF0)%N then utf16_of_utf8 (N.land b 0x0F) 2%nat bs'
          else utf16_of_utf8 (N.land b 0x07) 3%nat bs'
      | S k' =>
          let acc' := (acc * 64 + N.land b 0x3F)%N in
          match k' with
          | O => utf16_units acc' ++ utf16_of_utf8 0%N 0%nat bs'
          | S _ => utf16_of_utf8 acc' k' bs'
          end
      end
  end.

(** A string literal of the source. *)
Definition js (s : string) : jsstring :=
  utf16_of_utf8 0%N 0%nat (map N_of_ascii (list_ascii_of_string s)).

(** ECMAScript [WhiteSpace] and [LineTerminator] code points, the ones
    [String.prototype.trim] strips (all in the basic plane). *)
Definition isWhiteSpace (c : N) : bool :=
  existsb (N.eqb c)
    [0x0009; 0x000A; 0x000B; 0x000C; 0x000D; 0x0020; 0x00A0; 0x1680;
     0x2028; 0x2029; 0x202F; 0x205F; 0x3000; 0xFEFF]%N
  || ((0x2000 <=? c)%N && (c <=? 0x200A)%N).

Fixpoint trimStart (s : jsstring) : jsstring :=
  match s with
  | [] => []
  | c :: s' => if isWhiteSpace c then trimStart s' else s
  end.

Definition trimEnd (s : jsstring) : jsstring := rev (trimStart (rev s)).

(** [String.prototype.trim]. *)
Definition trim (s : jsstring) : jsstring := trimEnd (trimStart s).

(** Truthiness of a string: the empty string is the only falsy one. *)
Definition truthy_string (s : jsstring) : bool :=
  match s with [] => false | _ :: _ => true end.

(** [String(n)] / template interpolation of an integer-valued number
    (decimal digits, a leading minus sign; magnitudes below 10^21). *)
Definition intToString (n : Z) : jsstring :=
  js (NilZero.string_of_int (Z.to_int n)).

(** [String.prototype.toLowerCase] restricted to Basic Latin; used to
    instantiate the Unicode case mapping in examples. *)
Definition asciiLower (s : jsstring) : jsstring :=
  map (fun c => if ((0x41 <=? c) && (c <=? 0x5A))%N then (c + 0x20)%N else c) s.

(* ================================================================== *)
(** ** Data model ([services/gameService]) *)

(** [interface Guess]; [percentile] is not declared there but the later
    revision of the screen reads it from every guess
    ([null]/[undefined] is [None]). *)
Record Guess : Type := mkGuess {
  word : jsstring;
  similarity : Q;
  guess_number : Z;
  rank : Z;
  is_correct : bool;
  percentile : option Z
}.

(** [interface GameState]. *)
Record GameState : Type := mkGameState {
  game_id : jsstring;
  guesses : list Guess;
  guess_count : Z;
  game_over : bool;
  target_word : option jsstring;
  started_at : jsstring;
  clues_used : option Z;
  clues_available : option (list jsstring)
}.

(** [interface ClueResponse]. *)
Record ClueResponse : Type := mkClueResponse {
  clue_game_id : jsstring;
  clue : jsstring;
  clue_number : Z;
  remaining_clues : Z
}.

(** [interface GuessResponse]. *)
Record GuessResponse : Type := mkGuessResponse {
  resp_game_id : jsstring;
  resp_word : jsstring;
  resp_similarity : Q;
  resp_rank : Z;
  resp_percentile : option Z;
  resp_guess_number : Z;
  resp_is_correct : bool;
  resp_game_over : bool;
  top_similarity : option Q
}.

(** The payload of [giveUp]. *)
Record GiveUpResponse : Type := mkGiveUpResponse {
  giveup_game_id : jsstring;
  giveup_target_word : jsstring;
  giveup_message : jsstring
}.

Inductive Difficulty : Type := easy | normal | hard.

(* ================================================================== *)
(** ** Presentation helpers ([index.tsx]) *)

(** [x >= y] on finite numbers. *)
Definition Qge_bool (x y : Q) : bool := Qle_bool y x.
Infix ">=?" := Qge_bool (at level 70, no associativity) : Q_scope.

Definition getSimilarityColor (similarity : Q) : jsstring :=
  if (similarity >=? 80)%Q then js "#10b981"
  else if (similarity >=? 70)%Q then js "#84cc16"
  else if (similarity >=? 60)%Q then js "#eab308"
  else if (similarity >=? 50)%Q then js "#f59e0b"
  else if (similarity >=? 40)%Q then js "#f97316"
  else if (similarity >=? 30)%Q then js "#ef4444"
  else if (similarity >=? 20)%Q then js "#3b82f6"
  else js "#6b7280".

Definition getTemperatureEmoji (similarity : Q) : jsstring :=
  if (similarity >=? 80)%Q then js "🔥🔥🔥"
  else if (similarity >=? 70)%Q then js "🔥🔥"
  else if (similarity >=? 60)%Q then js "🔥"
  else if (similarity >=? 50)%Q then js "🌡️"
  else if (similarity >=? 40)%Q then js "🌤️"
  else if (similarity >=? 30)%Q then js "☁️"
  else if (similarity >=? 20)%Q then js "❄️"
  else js "🧊".

(** Later revision: the text comes from the percentile alone. *)
Definition getPercentileDisplay (percentile : option Z) : jsstring :=
  match percentile with
  | None => js "—"
  | Some p => intToString p ++ js "/1000"
  end.

(** The percentile cell of one row of the guesses list: the JSX tests the
    field itself and renders the dash without calling the helper. *)
Definition percentileCell (gameState : GameState) (guess : Guess) : jsstring :=
  match percentile guess with
  | Some p => getPercentileDisplay (Some p)
  | None => js "—"
  end.

(** [topGuess] and the percentile shown in the statistics box. *)
Definition topGuess (gameState : GameState) : option Guess :=
  match guesses gameState with
  | [] => None
  | g :: _ => Some g
  end.

Definition topGuessPercentile (gameState : GameState) : option jsstring :=
  match topGuess gameState with
  | Some g => Some (getPercentileDisplay (percentile g))
  | None => None
  end.

(** The eight bands in the words of the specification: a band holds the
    scores from its threshold (included) up to the next threshold
    (excluded); the top band has no upper end, the last one no lower end. *)
Inductive Band : Type :=
  Band80 | Band70 | Band60 | Band50 | Band40 | Band30 | Band20 | BandElse.

Definition all_bands : list Band :=
  [Band80; Band70; Band60; Band50; Band40; Band30; Band20; BandElse].

Definition band_lower (b : Band) : option Q :=
  match b with
  | Band80 => Some 80%Q | Band70 => Some 70%Q | Band60 => Some 60%Q
  | Band50 => Some 50%Q | Band40 => Some 40%Q | Band30 => Some 30%Q
  | Band20 => Some 20%Q | BandElse => None
  end.

Definition band_upper (b : Band) : option Q :=
  match b with
  | Band80 => None | Band70 => Some 80%Q | Band60 => Some 70%Q
  | Band50 => Some 60%Q | Band40 => Some 50%Q | Band30 => Some 40%Q
  | Band20 => Some 30%Q | BandElse => Some 20%Q
  end.

Definition in_band (b : Band) (s : Q) : Prop :=
  match band_lower b with Some t => (t <= s)%Q | None => True end /\
  match band_upper b with Some t => (s < t)%Q | None => True end.

Definition colorToken (b : Band) : jsstring :=
  match b with
  | Band80 => js "#10b981" | Band70 => js "#84cc16" | Band60 => js "#eab308"
  | Band50 => js "#f59e0b" | Band40 => js "#f97316" | Band30 => js "#ef4444"
  | Band20 => js "#3b82f6" | BandElse => js "#6b7280"
  end.

Definition glyph (b : Band) : jsstring :=
  match b with
  | Band80 => js "🔥🔥🔥" | Band70 => js "🔥🔥" | Band60 => js "🔥"
  | Band50 => js "🌡️" | Band40 => js "🌤️" | Band30 => js "☁️"
  | Band20 => js "❄️" | BandElse => js "🧊"
  end.

(** The band the descending chain of tests selects. *)
Definition bandOf (similarity : Q) : Band :=
  if (similarity >=? 80)%Q then Band80
  else if (similarity >=? 70)%Q then Band70
  else if (similarity >=? 60)%Q then Band60
  else if (similarity >=? 50)%Q then Band50
  else if (similarity >=? 40)%Q then Band40
  else if (similarity >=? 30)%Q then Band30
  else if (similarity >=? 20)%Q then Band20
  else BandElse.

Module Rev1.

(** The double nearest to an integer (what a number field holds). *)
Definition number_of_Z (z : Z) : float :=
  SF2Prim (binary_normalize prec emax z 0 false).

(** The exact value of a finite double. *)
Definition exact_value (x : float) : option Q :=
  match Prim2SF x with
  | S754_zero _ => Some 0%Q
  | S754_finite sign m e =>
      Some ((if sign then inject_Z (Z.neg m) else inject_Z (Z.pos m)) * 2 ^ e)%Q
  | S754_infinity _ | S754_nan => None
  end.

(** [Math.round]: the integer nearest to the exact value of the argument,
    the upper one of two equally near; [NaN] and the infinities are
    returned as they are. *)
Definition Math_round (x : float) : float :=
  match exact_value x with
  | Some q => number_of_Z (Qfloor (q + (1 # 2)))
  | None => x
  end.

(** Template interpolation of a number that is integral, [NaN] or
    infinite (integral values in decimal digits, magnitudes below
    10^21). *)
Definition integralToString (x : float) : jsstring :=
  match Prim2SF x with
  | S754_nan => js "NaN"
  | S754_infinity false => js "Infinity"
  | S754_infinity true => js "-Infinity"
  | S754_zero _ | S754_finite _ _ _ =>
      match exact_value x with
      | Some q => intToString (Qfloor q)
      | None => []
      end
  end.

(** Earlier revision of the helper: the text is computed on the client
    from the rank and the number of guesses, in double arithmetic. *)
Definition getPercentileDisplay (rank total : Z) : jsstring :=
  if total =? 0 then js "1000/1000"
  else
    let percentile :=
      Math_round
        (((number_of_Z total - number_of_Z rank + 1) / number_of_Z total)
         * 1000)%float in
    integralToString percentile ++ js "/1000".

(** The percentile cell of a row and of the statistics box:
    [getPercentileDisplay(guess.rank, gameState.guess_count)]. *)
Definition percentileCell (gameState : GameState) (guess : Guess) : jsstring :=
  getPercentileDisplay (rank guess) (guess_count gameState).

(** Earlier revision of the guesses list: rendered in stored order. *)
Definition displayedGuesses (gameState : GameState) : list Guess :=
  guesses gameState.

End Rev1.

(* ================================================================== *)
(** ** The guesses list ([index.tsx], later revision) *)

(** [Array.prototype.sort(comparefn)] on a fresh copy.  The language
    fixes the result for a consistent comparator: sorted by [comparefn]
    and stable.  It is computed here by insertion from the right: an
    element is placed before the first later element it does not have to
    follow ([comparefn x y <= 0]). *)
Fixpoint sort_insert {A : Type} (comparefn : A -> A -> Q) (x : A) (l : list A)
  : list A :=
  match l with
  | [] => [x]
  | y :: l' =>
      if Qle_bool (comparefn x y) 0 then x :: l
      else y :: sort_insert comparefn x l'
  end.

Definition Array_sort {A : Type} (comparefn : A -> A -> Q) (l : list A)
  : list A :=
  fold_right (sort_insert comparefn) [] l.

(** [[...gameState.guesses].sort((a, b) => b.similarity - a.similarity)] *)
Definition displayedGuesses (gameState : GameState) : list Guess :=
  Array_sort (fun a b => similarity b - similarity a)%Q (guesses gameState).

(* ================================================================== *)
(** ** Exceptions, HTTP exchanges and observable effects *)

(** A thrown value: an [Error] (of any subclass) with its message, or a
    value that is not an [Error]. *)
Inductive exn : Type :=
| JsError (message : jsstring)
| NonError.

(** What reading [.detail] off a parsed error body can give, as far as
    [||] and [new Error(...)] tell values apart.  [VOther] stands for
    [true], a non-zero number, an array or an object, kept by the text
    that [String] gives for it. *)
Inductive JsValue : Type :=
| VUndefined
| VNull
| VFalse
| VZero
| VString (s : jsstring)
| VOther (rendering : jsstring).

(** The parsed body of a non-success response: JSON [null], or any other
    JSON value together with what its property [detail] reads as
    ([VUndefined] when it has none). *)
Inductive ErrorBody : Type :=
| BodyNull
| BodyWith (detail : JsValue).

(** A resolved [fetch].  [response.json()] is given under the two types
    at which the transport reads it: as the declared payload on the
    success path and as an error body otherwise; either read may reject.
    Only the reading that goes with [ok] is ever consulted. *)
Record Response (A : Type) : Type := mkResponse {
  status : Z;
  json_payload : exn + A;
  json_error : exn + ErrorBody
}.
Arguments mkResponse {A}.
Arguments status {A}.
Arguments json_payload {A}.
Arguments json_error {A}.

(** [response.ok]: the status is in the range 200-299. *)
Definition ok {A : Type} (response : Response A) : bool :=
  (200 <=? status response) && (status response <=? 299).

Inductive FetchOutcome (A : Type) : Type :=
| Rejected (e : exn)
| Resolved (response : Response A).
Arguments Rejected {A}.
Arguments Resolved {A}.

Inductive Method : Type := GET | POST.

(** Request bodies before [JSON.stringify] (the [Content-Type] header
    that goes with them is not recorded). *)
Inductive RequestBody : Type :=
| NoBody
| StartBody (difficulty : Difficulty) (daily_mode : bool)
| GuessBody (game_id : jsstring) (word : jsstring).

Record Request : Type := mkRequest {
  method : Method;
  url : jsstring;
  body : RequestBody
}.

(** The two timer callbacks of the screen. *)
Inductive Callback : Type :=
| CelebrationAlert (guess_number : Z)
| HideClue.

Inductive Effect : Type :=
| Fetch (request : Request)
| Alert (text : jsstring)
| Confirm (text : jsstring)
| SetTimeout (callback : Callback) (ms : Z)
| ConsoleError (text : jsstring) (e : exn).

(** The outcome of each exchange during one handler run, and the answer
    the player gives to [confirm]. *)
Record Env : Type := mkEnv {
  healthOutcome : FetchOutcome unit;
  startOutcome : FetchOutcome GameState;
  guessOutcome : FetchOutcome GuessResponse;
  stateOutcome : FetchOutcome GameState;
  giveUpOutcome : FetchOutcome GiveUpResponse;
  clueOutcome : FetchOutcome ClueResponse;
  confirmAnswer : bool
}.

(** The [useState] cells of [SemantleGame]. *)
Record Hooks : Type := mkHooks {
  gameState : option GameState;
  guessInput : jsstring;
  loading : bool;
  apiConnected : option bool;
  error : jsstring;
  cluesUsed : Z;
  currentClue : jsstring
}.

Record World : Type := mkWorld {
  hooks : Hooks;
  effects : list Effect
}.

(** Asynchronous computations. *)
Definition Async (A : Type) : Type := Env -> World -> World * (exn + A).

Definition ret {A : Type} (a : A) : Async A :=
  fun _ w => (w, inr a).

Definition throw {A : Type} (e : exn) : Async A :=
  fun _ w => (w, inl e).

Definition bind {A B : Type} (c : Async A) (k : A -> Async B) : Async B :=
  fun env w =>
    let '(w1, r) := c env w in
    match r with
    | inl e => (w1, inl e)
    | inr a => k a env w1
    end.

Declare Scope async_scope.
Delimit Scope async_scope with async.
Bind Scope async_scope with Async.
Notation "x <- c ;; k" := (bind c (fun x => k))
  (at level 61, c at next level, right associativity) : async_scope.
Notation "c ;; k" := (bind c (fun _ => k))
  (at level 61, right associativity) : async_scope.
Local Open Scope async_scope.

(** [try { body } catch (err) { handler }] *)
Definition try_catch {A : Type} (body : Async A) (handler : exn -> Async A)
  : Async A :=
  fun env w =>
    let '(w1, r) := body env w in
    match r with
    | inl e => handler e env w1
    | inr a => (w1, inr a)
    end.

(** [try { body } catch (err) { handler } finally { finalizer }] *)
Definition try_catch_finally {A : Type} (body : Async A)
  (handler : exn -> Async A) (finalizer : Async unit) : Async A :=
  fun env w =>
    let '(w1, r) := try_catch body handler env w in
    let '(w2, f) := finalizer env w1 in
    match f with
    | inl e => (w2, inl e)
    | inr _ => (w2, r)
    end.

Definition perform (e : Effect) : Async unit :=
  fun _ w => ({| hooks := hooks w; effects := effects w ++ [e] |}, inr tt).

Definition update (f : Hooks -> Hooks) : Async unit :=
  fun _ w => ({| hooks := f (hooks w); effects := effects w |}, inr tt).

(** [await fetch(...)] of the exchange selected by [outcome]. *)
Definition fetch {A : Type} (outcome : Env -> FetchOutcome A) (request : Request)
  : Async (Response A) :=
  fun env w =>
    ({| hooks := hooks w; effects := effects w ++ [Fetch request] |},
     match outcome env with
     | Rejected e => inl e
     | Resolved response => inr response
     end).

(** [await response.json()] at either type. *)
Definition await_json {A : Type} (r : exn + A) : Async A :=
  fun _ w => (w, match r with inl e => inl e | inr a => inr a end).

(** Truthiness, as [||] tests it. *)
Definition truthy (v : JsValue) : bool :=
  match v with
  | VString s => truthy_string s
  | VOther _ => true
  | VUndefined | VNull | VFalse | VZero => false
  end.

(** [v || d] with a string literal on the right. *)
Definition or_else (v : JsValue) (d : jsstring) : JsValue :=
  if truthy v then v else VString d.

Definition ToString (v : JsValue) : jsstring :=
  match v with
  | VUndefined => js "undefined"
  | VNull => js "null"
  | VFalse => js "false"
  | VZero => js "0"
  | VString s => s
  | VOther rendering => rendering
  end.

(** [new Error(v)]: the message is the empty one of the prototype when
    [v] is [undefined], and [String(v)] otherwise. *)
Definition new_Error (v : JsValue) : exn :=
  match v with
  | VUndefined => JsError []
  | _ => JsError (ToString v)
  end.

(** The [TypeError] of reading a property of [null] (the wording is the
    engine's). *)
Definition TypeError_detail_of_null : exn :=
  JsError (js "Cannot read property 'detail' of null").

(** [error.detail] *)
Definition get_detail (error : ErrorBody) : Async JsValue :=
  match error with
  | BodyNull => throw TypeError_detail_of_null
  | BodyWith detail => ret detail
  end.

(* ================================================================== *)
(** ** Configuration ([config/api.ts]) *)

Definition getApiUrl : jsstring :=
  let LOCAL_IP := js "localhost" in
  let PORT := js "8080" in
  js "http://" ++ LOCAL_IP ++ js ":" ++ PORT.

Definition API_BASE_URL : jsstring := getApiUrl.

Module API_ENDPOINTS.
Definition HEALTH : jsstring := js "/".
Definition START_GAME : jsstring := js "/game/start".
Definition MAKE_GUESS : jsstring := js "/game/guess".
Definition GET_GAME_STATE (gameId : jsstring) : jsstring :=
  js "/game/" ++ gameId.
Definition GIVE_UP (gameId : jsstring) : jsstring :=
  js "/game/" ++ gameId ++ js "/give-up".
Definition SIMILARITY : jsstring := js "/similarity".
End API_ENDPOINTS.

Section Client.

(** [String.prototype.toLowerCase], the Unicode lower-case mapping of the
    language: a built-in, left abstract. *)
Variable toLowerCase : jsstring -> jsstring.

(* ================================================================== *)
(** ** Transport ([class GameService]) *)

Definition checkHealth : Async bool :=
  try_catch
    (response <- fetch healthOutcome
       {| method := GET; url := API_BASE_URL ++ API_ENDPOINTS.HEALTH;
          body := NoBody |} ;;
     ret (ok response))
    (fun error =>
       perform (ConsoleError (js "API health check failed:") error) ;;
       ret false).

Definition startGame (difficulty : Difficulty) (dailyMode : bool)
  : Async GameState :=
  response <- fetch startOutcome
    {| method := POST; url := API_BASE_URL ++ API_ENDPOINTS.START_GAME;
       body := StartBody difficulty dailyMode |} ;;
  if negb (ok response) then
    error <- await_json (json_error response) ;;
    detail <- get_detail error ;;
    throw (new_Error (or_else detail (js "Failed to start game")))
  else await_json (json_payload response).

Definition makeGuess (gameId : jsstring) (word : jsstring)
  : Async GuessResponse :=
  response <- fetch guessOutcome
    {| method := POST; url := API_BASE_URL ++ API_ENDPOINTS.MAKE_GUESS;
       body := GuessBody gameId (trim (toLowerCase word)) |} ;;
  if negb (ok response) then
    error <- await_json (json_error response) ;;
    detail <- get_detail error ;;
    throw (new_Error (or_else detail (js "Failed to make guess")))
  else await_json (json_payload response).

Definition getGameState (gameId : jsstring) : Async GameState :=
  response <- fetch stateOutcome
    {| method := GET;
       url := API_BASE_URL ++ API_ENDPOINTS.GET_GAME_STATE gameId;
       body := NoBody |} ;;
  if negb (ok response) then
    error <- await_json (json_error response) ;;
    detail <- get_detail error ;;
    throw (new_Error (or_else detail (js "Failed to get game state")))
  else await_json (json_payload response).

Definition giveUp (gameId : jsstring) : Async GiveUpResponse :=
  response <- fetch giveUpOutcome
    {| method := POST; url := API_BASE_URL ++ API_ENDPOINTS.GIVE_UP gameId;
       body := NoBody |} ;;
  if negb (ok response) then
    error <- await_json (json_error response) ;;
    detail <- get_detail error ;;
    throw (new_Error (or_else detail (js "Failed to give up")))
  else await_json (json_payload response).

Definition getClue (gameId : jsstring) : Async ClueResponse :=
  response <- fetch clueOutcome
    {| method := POST;
       url := API_BASE_URL ++ js "/game/" ++ gameId ++ js "/clue";
       body := NoBody |} ;;
  if negb (ok response) then
    error <- await_json (json_error response) ;;
    detail <- get_detail error ;;
    throw (new_Error (or_else detail (js "Failed to get clue")))
  else await_json (json_payload response).

(* ================================================================== *)
(** ** Controller ([SemantleGame], later revision) *)

(** Functional update of one cell, and the setter the hook returns. *)
Definition with_gameState (v : option GameState) (h : Hooks) : Hooks :=
  {| gameState := v; guessInput := guessInput h; loading := loading h;
     apiConnected := apiConnected h; error := error h;
     cluesUsed := cluesUsed h; currentClue := currentClue h |}.

Definition with_guessInput (v : jsstring) (h : Hooks) : Hooks :=
  {| gameState := gameState h; guessInput := v; loading := loading h;
     apiConnected := apiConnected h; error := error h;
     cluesUsed := cluesUsed h; currentClue := currentClue h |}.

Definition with_loading (v : bool) (h : Hooks) : Hooks :=
  {| gameState := gameState h; guessInput := guessInput h; loading := v;
     apiConnected := apiConnected h; error := error h;
     cluesUsed := cluesUsed h; currentClue := currentClue h |}.

Definition with_apiConnected (v : option bool) (h : Hooks) : Hooks :=
  {| gameState := gameState h; guessInput := guessInput h; loading := loading h;
     apiConnected := v; error := error h;
     cluesUsed := cluesUsed h; currentClue := currentClue h |}.

Definition with_error (v : jsstring) (h : Hooks) : Hooks :=
  {| gameState := gameState h; guessInput := guessInput h; loading := loading h;
     apiConnected := apiConnected h; error := v;
     cluesUsed := cluesUsed h; currentClue := currentClue h |}.

Definition with_cluesUsed (v : Z) (h : Hooks) : Hooks :=
  {| gameState := gameState h; guessInput := guessInput h; loading := loading h;
     apiConnected := apiConnected h; error := error h;
     cluesUsed := v; currentClue := currentClue h |}.

Definition with_currentClue (v : jsstring) (h : Hooks) : Hooks :=
  {| gameState := gameState h; guessInput := guessInput h; loading := loading h;
     apiConnected := apiConnected h; error := error h;
     cluesUsed := cluesUsed h; currentClue := v |}.

Definition setGameState (v : option GameState) : Async unit :=
  update (with_gameState v).

Definition setGuessInput (v : jsstring) : Async unit :=
  update (with_guessInput v).

Definition setLoading (v : bool) : Async unit :=
  update (with_loading v).

Definition setApiConnected (v : option bool) : Async unit :=
  update (with_apiConnected v).

Definition setError (v : jsstring) : Async unit :=
  update (with_error v).

Definition setCluesUsed (v : Z) : Async unit :=
  update (with_cluesUsed v).

Definition setCurrentClue (v : jsstring) : Async unit :=
  update (with_currentClue v).

Definition alert (text : jsstring) : Async unit := perform (Alert text).

Definition confirm (text : jsstring) : Async bool :=
  fun env w =>
    ({| hooks := hooks w; effects := effects w ++ [Confirm text] |},
     inr (confirmAnswer env)).

Definition setTimeout (callback : Callback) (ms : Z) : Async unit :=
  perform (SetTimeout callback ms).

(** [err instanceof Error ? err.message : fallback] *)
Definition message_or (err : exn) (fallback : jsstring) : jsstring :=
  match err with
  | JsError message => message
  | NonError => fallback
  end.

(** Every handler is a closure over the hook values [r] of the render
    that created it; its writes go to the live cells. *)

Definition startNewGame (dailyMode : bool) : Async unit :=
  setLoading true ;;
  setError [] ;;
  try_catch_finally
    (newGame <- startGame normal dailyMode ;;
     setGameState (Some newGame) ;;
     setGuessInput [])
    (fun err => setError (message_or err (js "Failed to start game")))
    (setLoading false).

Definition initializeGame : Async unit :=
  connected <- checkHealth ;;
  setApiConnected (Some connected) ;;
  if connected then
    setLoading true ;;
    setError [] ;;
    try_catch_finally
      (newGame <- startGame normal true ;;
       setGameState (Some newGame) ;;
       setGuessInput [])
      (fun err => setError (message_or err (js "Failed to start game")))
      (setLoading false)
  else ret tt.

Definition handleGuess (r : Hooks) : Async unit :=
  if negb (truthy_string (trim (guessInput r))) then ret tt else
  match gameState r with
  | None => ret tt
  | Some gs =>
      if loading r then ret tt else
      setLoading true ;;
      setError [] ;;
      try_catch_finally
        (result <- makeGuess (game_id gs) (guessInput r) ;;
         updatedState <- getGameState (game_id gs) ;;
         setGameState (Some updatedState) ;;
         setGuessInput [] ;;
         if resp_is_correct result then
           setTimeout (CelebrationAlert (resp_guess_number result)) 500
         else ret tt)
        (fun err => setError (message_or err (js "שגיאה בניחוש")))
        (setLoading false)
  end.

Definition handleGiveUp (r : Hooks) : Async unit :=
  match gameState r with
  | None => ret tt
  | Some gs =>
      confirmed <- confirm (js "בטוח שאתה רוצה לוותר?") ;;
      if confirmed then
        try_catch
          (result <- giveUp (game_id gs) ;;
           alert (js "המילה הייתה: " ++ giveup_target_word result) ;;
           startNewGame true)
          (fun _ => setError (js "שגיאה בוויתור"))
      else ret tt
  end.

Definition handleGetClue (r : Hooks) : Async unit :=
  match gameState r with
  | None => ret tt
  | Some gs =>
      if loading r then ret tt else
      if 3 <=? cluesUsed r then alert (js "השתמשת בכל הרמזים!") else
      setLoading true ;;
      setError [] ;;
      try_catch_finally
        (clueResponse <- getClue (game_id gs) ;;
         setCurrentClue (clue clueResponse) ;;
         setCluesUsed (clue_number clueResponse) ;;
         setTimeout HideClue 10000)
        (fun err => setError (message_or err (js "שגיאה בקבלת רמז")))
        (setLoading false)
  end.

(** Running a handler created by the render of [h]: the hook values
    afterwards and the effects it performed, in order. *)
Definition run (handler : Hooks -> Async unit) (env : Env) (h : Hooks)
  : Hooks * list Effect :=
  let '(w, _) := handler h env {| hooks := h; effects := [] |} in
  (hooks w, effects w).

Definition isFetch (e : Effect) : bool :=
  match e with Fetch _ => true | _ => false end.

(** The requests a run sent to the remote service. *)
Definition requests (es : list Effect) : list Request :=
  flat_map (fun e => match e with Fetch q => [q] | _ => [] end) es.


(* ================================================================== *)
(** ** The screen over time: timers and user actions *)

Record Timer : Type := mkTimer {
  due : Z;
  callback : Callback
}.

(** The mounted screen: hook cells, the clock (milliseconds), the timers
    armed and not yet fired, and everything the screen did so far. *)
Record System : Type := mkSystem {
  ui : Hooks;
  now : Z;
  timers : list Timer;
  log : list Effect
}.

Definition initialHooks : Hooks :=
  {| gameState := None; guessInput := []; loading := false;
     apiConnected := None; error := []; cluesUsed := 0; currentClue := [] |}.

Definition initialSystem : System :=
  {| ui := initialHooks; now := 0; timers := []; log := [] |}.

(** The timers a run armed at time [t]. *)
Definition armed (t : Z) (es : list Effect) : list Timer :=
  flat_map (fun e => match e with
                     | SetTimeout cb ms => [{| due := t + ms; callback := cb |}]
                     | _ => []
                     end) es.

(** A handler runs to completion at the current instant. *)
Definition dispatch (handler : Hooks -> Async unit) (env : Env) (sys : System)
  : System :=
  let '(h, es) := run handler env (ui sys) in
  {| ui := h; now := now sys; timers := timers sys ++ armed (now sys) es;
     log := log sys ++ es |}.

(** The body of a timer callback:
    [() => { setCurrentClue("") }] and the congratulation [alert]. *)
Definition fire (cb : Callback) (h : Hooks) : Hooks * list Effect :=
  match cb with
  | HideClue => (with_currentClue [] h, [])
  | CelebrationAlert n =>
      (h, [Alert (js "🎉 מצאת את המילה ב-" ++ intToString n ++ js " ניחושים!")])
  end.

Definition fireAll (ts : list Timer) (h : Hooks) : Hooks * list Effect :=
  fold_left (fun acc tm =>
               let '(h', es) := fire (callback tm) (fst acc) in
               (h', snd acc ++ es))
            ts (h, []).

(** [dt] milliseconds pass: the timers that fall due fire, earliest first
    (in arming order among equals). *)
Definition elapse (dt : Z) (sys : System) : System :=
  let t := now sys + dt in
  let ready := filter (fun tm => due tm <=? t) (timers sys) in
  let later := filter (fun tm => negb (due tm <=? t)) (timers sys) in
  let '(h, es) :=
    fireAll (Array_sort (fun a b => inject_Z (due a - due b)) ready) (ui sys) in
  {| ui := h; now := t; timers := later; log := log sys ++ es |}.

(** What can happen to the mounted screen. *)
Inductive Action : Type :=
| Mount (env : Env)
| Retry (env : Env)
| ChangeText (text : jsstring)
| SubmitGuess (env : Env)
| PressClue (env : Env)
| PressGiveUp (env : Env)
| Wait (dt : Z).

Definition step (sys : System) (a : Action) : System :=
  match a with
  | Mount env | Retry env => dispatch (fun _ => initializeGame) env sys
  | ChangeText text =>
      {| ui := with_guessInput text (ui sys); now := now sys;
         timers := timers sys; log := log sys |}
  | SubmitGuess env => dispatch handleGuess env sys
  | PressClue env => dispatch handleGetClue env sys
  | PressGiveUp env => dispatch handleGiveUp env sys
  | Wait dt => elapse dt sys
  end.

Definition play (actions : list Action) : System :=
  fold_left step actions initialSystem.

End Client.

(* ================================================================== *)
(** ** Vocabulary of the statements, and concrete inputs *)

(** Descending by similarity. *)
Definition by_similarity (a b : Guess) : Q := (similarity b - similarity a)%Q.

Definition not_below (a b : Guess) : Prop := (similarity b <= similarity a)%Q.

(** The guesses whose similarity is [q], in list order. *)
Definition with_similarity (q : Q) (l : list Guess) : list Guess :=
  filter (fun g => Qeq_bool (similarity g) q) l.

(** The claim as the specification words it: descending by similarity,
    and among equal similarities the lower rank first. *)
Definition ties_by_rank (l : list Guess) : Prop :=
  forall (i j : nat) (a b : Guess),
    (i < j)%nat -> nth_error l i = Some a -> nth_error l j = Some b ->
    (similarity a == similarity b)%Q -> rank a <= rank b.

Definition ordered_as_specified (gs : GameState) : Prop :=
  StronglySorted not_below (displayedGuesses gs) /\
  ties_by_rank (displayedGuesses gs).

(** Two words of equal score, the one of higher rank number guessed
    first. *)
Definition tied_guesses : GameState :=
  {| game_id := js "g1";
     guesses :=
       [ mkGuess (js "dog") (452 # 10) 1 121 false None;
         mkGuess (js "cat") (452 # 10) 2 120 false None ];
     guess_count := 2; game_over := false; target_word := None;
     started_at := js "2024-01-01T00:00:00"; clues_used := None;
     clues_available := None |}.

Definition starts_clean (s : jsstring) : bool :=
  match s with
  | [] => true
  | c :: _ => negb (isWhiteSpace c)
  end.

Definition ends_clean (s : jsstring) : bool := starts_clean (rev s).

(** The five operations that read an error body. *)
Inductive Operation : Type :=
| OpStartGame (difficulty : Difficulty) (dailyMode : bool)
| OpMakeGuess (gameId word : jsstring)
| OpGetGameState (gameId : jsstring)
| OpGiveUp (gameId : jsstring)
| OpGetClue (gameId : jsstring).

Definition failure {A : Type} (r : World * (exn + A)) : option exn :=
  match snd r with
  | inl e => Some e
  | inr _ => None
  end.

(** The exception an operation ends with, if any. *)
Definition thrownBy (toLowerCase : jsstring -> jsstring) (op : Operation)
  (env : Env) (w : World) : option exn :=
  match op with
  | OpStartGame d m => failure (startGame d m env w)
  | OpMakeGuess g x => failure (makeGuess toLowerCase g x env w)
  | OpGetGameState g => failure (getGameState g env w)
  | OpGiveUp g => failure (giveUp g env w)
  | OpGetClue g => failure (getClue g env w)
  end.

Definition replyOf {A : Type} (o : FetchOutcome A) : option (Z * (exn + ErrorBody)) :=
  match o with
  | Rejected _ => None
  | Resolved response => Some (status response, json_error response)
  end.

(** The status and the parsed body of the response an operation gets. *)
Definition reply (op : Operation) (env : Env) : option (Z * (exn + ErrorBody)) :=
  match op with
  | OpStartGame _ _ => replyOf (startOutcome env)
  | OpMakeGuess _ _ => replyOf (guessOutcome env)
  | OpGetGameState _ => replyOf (stateOutcome env)
  | OpGiveUp _ => replyOf (giveUpOutcome env)
  | OpGetClue _ => replyOf (clueOutcome env)
  end.

Definition fallbackMessage (op : Operation) : jsstring :=
  match op with
  | OpStartGame _ _ => js "Failed to start game"
  | OpMakeGuess _ _ => js "Failed to make guess"
  | OpGetGameState _ => js "Failed to get game state"
  | OpGiveUp _ => js "Failed to give up"
  | OpGetClue _ => js "Failed to get clue"
  end.

(** The claim as the specification words it: on a non-success status the
    error carries the [detail] text when the body has one and the
    fallback in every other case. *)
Definition surfaces_detail_or_fallback (toLowerCase : jsstring -> jsstring)
  (op : Operation) (env : Env) (w : World) : Prop :=
  forall (st : Z) (parsed : exn + ErrorBody),
    reply op env = Some (st, parsed) ->
    ~ (200 <= st <= 299) ->
    thrownBy toLowerCase op env w =
      Some (JsError (match parsed with
                     | inr (BodyWith (VString s)) => s
                     | _ => fallbackMessage op
                     end)).

Definition networkDown {A : Type} : FetchOutcome A :=
  Rejected (JsError (js "Network request failed")).

Definition offline : Env :=
  {| healthOutcome := networkDown; startOutcome := networkDown;
     guessOutcome := networkDown; stateOutcome := networkDown;
     giveUpOutcome := networkDown; clueOutcome := networkDown;
     confirmAnswer := false |}.

Definition emptyWorld : World := {| hooks := initialHooks; effects := [] |}.

(** A guess answered 400 with [{"detail": ""}]. *)
Definition env_empty_detail : Env :=
  {| healthOutcome := networkDown; startOutcome := networkDown;
     guessOutcome :=
       Resolved {| status := 400;
                   json_payload := inl (JsError (js "not a guess response"));
                   json_error := inr (BodyWith (VString [])) |};
     stateOutcome := networkDown; giveUpOutcome := networkDown;
     clueOutcome := networkDown; confirmAnswer := false |}.

(** A guess answered 502 with a page that is not JSON. *)
Definition env_html_body : Env :=
  {| healthOutcome := networkDown; startOutcome := networkDown;
     guessOutcome :=
       Resolved {| status := 502;
                   json_payload := inl (JsError (js "JSON Parse error: Unexpected token: <"));
                   json_error := inl (JsError (js "JSON Parse error: Unexpected token: <")) |};
     stateOutcome := networkDown; giveUpOutcome := networkDown;
     clueOutcome := networkDown; confirmAnswer := false |}.

(** A guess answered 404 with [{"detail": "Game not found"}]. *)
Definition env_game_not_found : Env :=
  {| healthOutcome := networkDown; startOutcome := networkDown;
     guessOutcome :=
       Resolved {| status := 404;
                   json_payload := inl (JsError (js "not a guess response"));
                   json_error := inr (BodyWith (VString (js "Game not found"))) |};
     stateOutcome := networkDown; giveUpOutcome := networkDown;
     clueOutcome := networkDown; confirmAnswer := false |}.

(** An exchange fails when the request is rejected, when the status is
    not a success, or when the body of a success cannot be read. *)
Definition request_fails {A : Type} (o : FetchOutcome A) : Prop :=
  match o with
  | Rejected _ => True
  | Resolved response =>
      ok response = false \/ exists e, json_payload response = inl e
  end.

(** A computation that leaves [cluesUsed] alone. *)
Definition keeps_clues {A : Type} (c : Async A) : Prop :=
  forall env w, cluesUsed (hooks (fst (c env w))) = cluesUsed (hooks w).

(** The clue number a press of the clue button is answered with, when
    the exchange succeeds. *)
Definition servedClueNumber (env : Env) : option Z :=
  match clueOutcome env with
  | Rejected _ => None
  | Resolved response =>
      if ok response then
        match json_payload response with
        | inl _ => None
        | inr c => Some (clue_number c)
        end
      else None
  end.

(** The service never numbers a clue above 3. *)
Definition clue_numbers_capped (a : Action) : bool :=
  match a with
  | PressClue env =>
      match servedClueNumber env with
      | Some n => n <=? 3
      | None => true
      end
  | _ => true
  end.

Definition fresh_game : GameState :=
  {| game_id := js "g1"; guesses := []; guess_count := 0; game_over := false;
     target_word := None; started_at := js "2024-01-01T00:00:00";
     clues_used := None; clues_available := None |}.

(** A 200 response carrying [a]. *)
Definition success {A : Type} (a : A) : FetchOutcome A :=
  Resolved {| status := 200; json_payload := inr a;
              json_error := inr (BodyWith VUndefined) |}.

(** The service is up, starts [fresh_game] and answers a clue request
    with clue number [n] and text [text]. *)
Definition env_clue (n : Z) (text : jsstring) : Env :=
  {| healthOutcome := success tt; startOutcome := success fresh_game;
     guessOutcome := networkDown; stateOutcome := networkDown;
     giveUpOutcome := networkDown;
     clueOutcome :=
       success {| clue_game_id := js "g1"; clue := text; clue_number := n;
                  remaining_clues := 3 - n |};
     confirmAnswer := false |}.

(** The game is on, a word is typed, nothing is in flight. *)
Definition ready_to_guess : Hooks :=
  {| gameState := Some tied_guesses; guessInput := js " Dog ";
     loading := false; apiConnected := Some true; error := [];
     cluesUsed := 0; currentClue := [] |}.

(** Three clues in a row, numbered 1, 2, 3. *)
Definition three_clues : list Action :=
  [ Mount (env_clue 1 (js "first"));
    PressClue (env_clue 1 (js "first"));
    PressClue (env_clue 2 (js "second"));
    PressClue (env_clue 3 (js "third")) ].

(** The claim as the specification words it. *)
Definition clue_throttle_as_specified (toLowerCase : jsstring -> jsstring) : Prop :=
  (forall actions : list Action,
     cluesUsed (ui (play toLowerCase actions)) <= 3) /\
  (forall (env : Env) (r : Hooks),
     3 <= cluesUsed r -> requests (snd (run handleGetClue env r)) = []).

(** Two clues, then the service numbers the next one 4. *)
Definition over_numbered : list Action :=
  [ Mount (env_clue 1 (js "first"));
    PressClue (env_clue 1 (js "first"));
    PressClue (env_clue 2 (js "second"));
    PressClue (env_clue 4 (js "fourth")) ].

(** A first clue, then a second one eight seconds later. *)
Definition two_clues_8s_apart : list Action :=
  [ Mount (env_clue 1 (js "first"));
    PressClue (env_clue 1 (js "first"));
    Wait 8000;
    PressClue (env_clue 2 (js "second")) ].

(* ================================================================== *)
(** ** What the screen renders ([SemantleGame], later revision) *)

(** The three returns of the component: the server-down notice when
    [apiConnected === false], the spinner while there is no game state,
    the game otherwise. *)
Inductive Screen : Type :=
| ServerDownScreen
| LoadingScreen
| GameScreen (gameState : GameState).

Definition render (h : Hooks) : Screen :=
  match apiConnected h with
  | Some false => ServerDownScreen
  | _ =>
      match gameState h with
      | None => LoadingScreen
      | Some gs => GameScreen gs
      end
  end.

(** The [disabled] and [editable] props of the game screen. *)
Definition clueButtonDisabled (h : Hooks) (gs : GameState) : bool :=
  loading h || (3 <=? cluesUsed h) || game_over gs.

Definition guessButtonDisabled (h : Hooks) (gs : GameState) : bool :=
  loading h || negb (truthy_string (trim (guessInput h))) || game_over gs.

Definition inputEditable (h : Hooks) (gs : GameState) : bool :=
  negb (loading h) && negb (game_over gs).

Definition giveUpButtonDisabled (gs : GameState) : bool := game_over gs.

(* ================================================================== *)
(** ** Further vocabulary *)

(** The world an operation leaves behind. *)
Definition worldAfter (toLowerCase : jsstring -> jsstring) (op : Operation)
  (env : Env) (w : World) : World :=
  match op with
  | OpStartGame d m => fst (startGame d m env w)
  | OpMakeGuess g x => fst (makeGuess toLowerCase g x env w)
  | OpGetGameState g => fst (getGameState g env w)
  | OpGiveUp g => fst (giveUp g env w)
  | OpGetClue g => fst (getClue g env w)
  end.

(** The payloads of the five operations, under one type. *)
Inductive Payload : Type :=
| GamePayload (gameState : GameState)
| GuessPayload (result : GuessResponse)
| GiveUpPayload (result : GiveUpResponse)
| CluePayload (clueResponse : ClueResponse).

Definition returned {A : Type} (tag : A -> Payload) (r : World * (exn + A))
  : option Payload :=
  match snd r with
  | inl _ => None
  | inr a => Some (tag a)
  end.

(** The value an operation resolves with, if it does. *)
Definition returnedBy (toLowerCase : jsstring -> jsstring) (op : Operation)
  (env : Env) (w : World) : option Payload :=
  match op with
  | OpStartGame d m => returned GamePayload (startGame d m env w)
  | OpMakeGuess g x => returned GuessPayload (makeGuess toLowerCase g x env w)
  | OpGetGameState g => returned GamePayload (getGameState g env w)
  | OpGiveUp g => returned GiveUpPayload (giveUp g env w)
  | OpGetClue g => returned CluePayload (getClue g env w)
  end.

Definition readOf {A : Type} (tag : A -> Payload) (o : FetchOutcome A)
  : option (Z * (exn + Payload)) :=
  match o with
  | Rejected _ => None
  | Resolved response =>
      Some (status response,
            match json_payload response with
            | inl e => inl e
            | inr a => inr (tag a)
            end)
  end.

(** The status of the response an operation gets and what reading its
    body as the payload gives. *)
Definition payloadRead (op : Operation) (env : Env)
  : option (Z * (exn + Payload)) :=
  match op with
  | OpStartGame _ _ => readOf GamePayload (startOutcome env)
  | OpMakeGuess _ _ => readOf GuessPayload (guessOutcome env)
  | OpGetGameState _ => readOf GamePayload (stateOutcome env)
  | OpGiveUp _ => readOf GiveUpPayload (giveUpOutcome env)
  | OpGetClue _ => readOf CluePayload (clueOutcome env)
  end.

Definition rejectionOf {A : Type} (o : FetchOutcome A) : option exn :=
  match o with
  | Rejected e => Some e
  | Resolved _ => None
  end.

(** The exception [fetch] rejects with for an operation, if it does. *)
Definition rejection (op : Operation) (env : Env) : option exn :=
  match op with
  | OpStartGame _ _ => rejectionOf (startOutcome env)
  | OpMakeGuess _ _ => rejectionOf (guessOutcome env)
  | OpGetGameState _ => rejectionOf (stateOutcome env)
  | OpGiveUp _ => rejectionOf (giveUpOutcome env)
  | OpGetClue _ => rejectionOf (clueOutcome env)
  end.

(** The health check succeeds: the request resolves with a success
    status. *)
Definition healthy (env : Env) : bool :=
  match healthOutcome env with
  | Rejected _ => false
  | Resolved response => ok response
  end.

(** Actions other than mounting the screen and pressing retry. *)
Definition in_game_action (a : Action) : bool :=
  match a with
  | Mount _ | Retry _ => false
  | _ => true
  end.

(** The bands from coldest to hottest. *)
Definition heat (b : Band) : Z :=
  match b with
  | BandElse => 0 | Band20 => 1 | Band30 => 2 | Band40 => 3
  | Band50 => 4 | Band60 => 5 | Band70 => 6 | Band80 => 7
  end.

(** The request each operation sends. *)
Definition requestOf (toLowerCase : jsstring -> jsstring) (op : Operation)
  : Request :=
  match op with
  | OpStartGame d m =>
      {| method := POST; url := js "http://localhost:8080/game/start";
         body := StartBody d m |}
  | OpMakeGuess g x =>
      {| method := POST; url := js "http://localhost:8080/game/guess";
         body := GuessBody g (trim (toLowerCase x)) |}
  | OpGetGameState g =>
      {| method := GET; url := js "http://localhost:8080/game/" ++ g;
         body := NoBody |}
  | OpGiveUp g =>
      {| method := POST;
         url := js "http://localhost:8080/game/" ++ g ++ js "/give-up";
         body := NoBody |}
  | OpGetClue g =>
      {| method := POST;
         url := js "http://localhost:8080/game/" ++ g ++ js "/clue";
         body := NoBody |}
  end.

(** A stored list the service already sent in display order. *)
Definition sorted_guesses : GameState :=
  {| game_id := js "g1";
     guesses :=
       [ mkGuess (js "cat") (62 # 1) 2 40 false None;
         mkGuess (js "dog") (452 # 10) 1 120 false None;
         mkGuess (js "log") (452 # 10) 3 121 false None ];
     guess_count := 3; game_over := false; target_word := None;
     started_at := js "2024-01-01T00:00:00"; clues_used := None;
     clues_available := None |}.

(** The exchange resolves with a success status and a body that reads
    as [a]. *)
Definition answers {A : Type} (o : FetchOutcome A) (a : A) : Prop :=
  exists response,
    o = Resolved response /\ ok response = true /\
    json_payload response = inr a.

(** The service is up and starts [fresh_game]; every other exchange is
    rejected. *)
Definition env_up : Env :=
  {| healthOutcome := success tt; startOutcome := success fresh_game;
     guessOutcome := networkDown; stateOutcome := networkDown;
     giveUpOutcome := networkDown; clueOutcome := networkDown;
     confirmAnswer := false |}.

(** The service is up but refuses to start a game. *)
Definition env_no_start : Env :=
  {| healthOutcome := success tt;
     startOutcome :=
       Resolved {| status := 500;
                   json_payload := inl (JsError (js "not a game state"));
                   json_error := inr (BodyWith (VString (js "No words loaded"))) |};
     guessOutcome := networkDown; stateOutcome := networkDown;
     giveUpOutcome := networkDown; clueOutcome := networkDown;
     confirmAnswer := false |}.

(** A correct guess, and the refreshed state that goes with it. *)
Definition winning_guess : GuessResponse :=
  {| resp_game_id := js "g1"; resp_word := js "dog"; resp_similarity := 100;
     resp_rank := 1; resp_percentile := Some 1000; resp_guess_number := 3;
     resp_is_correct := true; resp_game_over := true;
     top_similarity := None |}.

Definition won_game : GameState :=
  {| game_id := js "g1";
     guesses := [ mkGuess (js "dog") 100 3 1 true (Some 1000) ];
     guess_count := 3; game_over := true; target_word := Some (js "dog");
     started_at := js "2024-01-01T00:00:00"; clues_used := None;
     clues_available := None |}.

(** The guess is answered with [winning_guess] and the refresh with
    [won_game]. *)
Definition env_win : Env :=
  {| healthOutcome := success tt; startOutcome := success fresh_game;
     guessOutcome := success winning_guess; stateOutcome := success won_game;
     giveUpOutcome := networkDown; clueOutcome := networkDown;
     confirmAnswer := false |}.

(** The player confirms, the word is revealed and a new game starts. *)
Definition env_give_up : Env :=
  {| healthOutcome := success tt; startOutcome := success fresh_game;
     guessOutcome := networkDown; stateOutcome := networkDown;
     giveUpOutcome :=
       success {| giveup_game_id := js "g1"; giveup_target_word := js "dog";
                  giveup_message := js "Better luck next time" |};
     clueOutcome := networkDown; confirmAnswer := true |}.

(** The player confirms but the service cannot be reached. *)
Definition env_give_up_offline : Env :=
  {| healthOutcome := networkDown; startOutcome := networkDown;
     guessOutcome := networkDown; stateOutcome := networkDown;
     giveUpOutcome := networkDown; clueOutcome := networkDown;
     confirmAnswer := true |}.

(** A game in which two clues were used and the second is on display. *)
Definition two_clues_used : Hooks :=
  {| gameState := Some tied_guesses; guessInput := []; loading := false;
     apiConnected := Some true; error := []; cluesUsed := 2;
     currentClue := js "second" |}.

(** The screen right after a game has started. *)
Definition started : System :=
  {| ui := with_guessInput (js " Dog ")
             (with_apiConnected (Some true)
                (with_gameState (Some fresh_game) initialHooks));
     now := 0; timers := []; log := [] |}.

(** The screen after a mount that could not reach the service. *)
Definition unreachable : System :=
  {| ui := with_apiConnected (Some false) initialHooks;
     now := 0; timers := []; log := [] |}.

(** Typing, pressing every button and waiting, without a retry. *)
Definition fiddling : list Action :=
  [ ChangeText (js "dog"); SubmitGuess env_win;
    PressClue (env_clue 1 (js "first")); PressGiveUp env_give_up;
    Wait 60000 ].

(* ================================================================== *)
(** ** Vocabulary for the percentile text and for requests in flight *)

(** The text of a percentile cell is settled by the percentile the
    service supplied: guesses that agree on it get the same text, whatever
    their rank and whatever the game state (its guess count included). *)
Definition from_percentile_only (cell : GameState -> Guess -> jsstring) : Prop :=
  forall (gs gs' : GameState) (g g' : Guess),
    percentile g = percentile g' -> cell gs g = cell gs' g'.

(** Seven guesses were made; these two carry no percentile and differ in
    rank only. *)
Definition seven_guesses : GameState :=
  {| game_id := js "g1"; guesses := []; guess_count := 7; game_over := false;
     target_word := None; started_at := js "2024-01-01T00:00:00";
     clues_used := None; clues_available := None |}.

Definition ranked_first : Guess := mkGuess (js "dog") (452 # 10) 1 1 false None.

Definition ranked_third : Guess := mkGuess (js "dog") (452 # 10) 1 3 false None.

(** The screen while a handler is suspended at its first [await]: the
    statements before the [fetch] have run, the request is out, nothing
    after it has run.  [None] when the handler returns before any
    request. *)

(** [handleGiveUp]: no setter precedes the request. *)
Definition handleGiveUp_awaiting (env : Env) (r : Hooks)
  : option (Hooks * list Effect) :=
  match gameState r with
  | None => None
  | Some gs =>
      if confirmAnswer env then
        Some (r,
              [ Confirm (js "בטוח שאתה רוצה לוותר?");
                Fetch {| method := POST;
                         url := API_BASE_URL ++ API_ENDPOINTS.GIVE_UP (game_id gs);
                         body := NoBody |} ])
      else None
  end.

(** [handleGetClue]: [setLoading(true)] and [setError("")] precede the
    request. *)
Definition handleGetClue_awaiting (r : Hooks) : option (Hooks * list Effect) :=
  match gameState r with
  | None => None
  | Some gs =>
      if loading r then None else
      if 3 <=? cluesUsed r then None else
      Some (with_error [] (with_loading true r),
            [ Fetch {| method := POST;
                       url := API_BASE_URL ++ js "/game/" ++ game_id gs
                                ++ js "/clue";
                       body := NoBody |} ])
  end.

(** The player confirms the give-up; the guess that follows is answered
    with [winning_guess] and the refresh with [won_game]. *)
Definition env_confirm_give_up : Env :=
  {| healthOutcome := success tt; startOutcome := success fresh_game;
     guessOutcome := success winning_guess; stateOutcome := success won_game;
     giveUpOutcome :=
       success {| giveup_game_id := js "g1"; giveup_target_word := js "dog";
                  giveup_message := js "Better luck next time" |};
     clueOutcome := networkDown; confirmAnswer := true |}.

(* ################################################################## *)
(** * Properties *)

(* ================================================================== *)
(** ** Score bands *)

Lemma Qge_bool_true (x y : Q) : (x >=? y)%Q = true <-> (y <= x)%Q.
Proof. unfold Qge_bool. apply Qle_bool_iff. Qed.

Lemma Qge_bool_false (x y : Q) : (x >=? y)%Q = false <-> (x < y)%Q.
Proof.
  unfold Qge_bool. split; intro H.
  - apply Qnot_le_lt. intro L. apply Qle_bool_iff in L. congruence.
  - destruct (Qle_bool y x) eqn:E; [ | reflexivity ].
    apply Qle_bool_iff in E. lra.
Qed.

Ltac split_tests :=
  repeat match goal with
         | |- context [Qge_bool ?x ?y] =>
             let E := fresh "E" in
             destruct (Qge_bool x y) eqn:E;
             [ apply Qge_bool_true in E | apply Qge_bool_false in E ]
         end.

Lemma getSimilarityColor_band (s : Q) :
  getSimilarityColor s = colorToken (bandOf s).
Proof. unfold getSimilarityColor, bandOf. split_tests; reflexivity. Qed.

Lemma getTemperatureEmoji_band (s : Q) :
  getTemperatureEmoji s = glyph (bandOf s).
Proof. unfold getTemperatureEmoji, bandOf. split_tests; reflexivity. Qed.

Lemma bandOf_in_band (s : Q) : in_band (bandOf s) s.
Proof.
  unfold bandOf. split_tests; unfold in_band; simpl; split; trivial; lra.
Qed.

Lemma in_band_unique (s : Q) (b b' : Band) :
  in_band b s -> in_band b' s -> b = b'.
Proof.
  unfold in_band.
  destruct b, b'; simpl; intros [L U] [L' U']; try reflexivity;
    exfalso; lra.
Qed.

Lemma colorToken_injective (b b' : Band) :
  colorToken b = colorToken b' -> b = b'.
Proof. destruct b, b'; intro H; try reflexivity; vm_compute in H; discriminate. Qed.

Lemma glyph_injective (b b' : Band) : glyph b = glyph b' -> b = b'.
Proof. destruct b, b'; intro H; try reflexivity; vm_compute in H; discriminate. Qed.

Lemma threshold_opens_its_band (b : Band) (t : Q) :
  band_lower b = Some t -> bandOf t = b.
Proof.
  destruct b; simpl; intro H; inversion H; subst; reflexivity.
Qed.

(** C3.  For every score between 0 and 100 exactly one of the eight bands
    (a threshold included, the next one above excluded) holds the score,
    and that band gives both the colour and the glyph the screen shows;
    no other band has that colour or that glyph.  Every threshold maps to
    the band it opens, so 80 is in the top band, and 79.9 is in the next
    band down. *)
Theorem similarity_bands_exact (s : Q) :
  (0 <= s <= 100)%Q ->
  (exists b : Band,
     in_band b s /\
     (forall b', in_band b' s -> b' = b) /\
     getSimilarityColor s = colorToken b /\
     getTemperatureEmoji s = glyph b /\
     (forall b', getSimilarityColor s = colorToken b' -> b' = b) /\
     (forall b', getTemperatureEmoji s = glyph b' -> b' = b)) /\
  (forall b t,
     band_lower b = Some t ->
     getSimilarityColor t = colorToken b /\ getTemperatureEmoji t = glyph b) /\
  getSimilarityColor 80 = colorToken Band80 /\
  getTemperatureEmoji 80 = glyph Band80 /\
  getSimilarityColor (799 # 10) = colorToken Band70 /\
  getTemperatureEmoji (799 # 10) = glyph Band70.
Proof.
  intros _. split.
  - exists (bandOf s).
    split; [ apply bandOf_in_band | ].
    split; [ intros b' H; apply (in_band_unique s);
             [ exact H | apply bandOf_in_band ] | ].
    split; [ apply getSimilarityColor_band | ].
    split; [ apply getTemperatureEmoji_band | ].
    split; intros b' H.
    + apply colorToken_injective. rewrite <- H. apply getSimilarityColor_band.
    + apply glyph_injective. rewrite <- H. apply getTemperatureEmoji_band.
  - split.
    + intros b t H.
      rewrite getSimilarityColor_band, getTemperatureEmoji_band.
      rewrite (threshold_opens_its_band b t H). split; reflexivity.
    + repeat split.
Qed.

Lemma similarity_bands_exact_at_80 :
  (exists b : Band,
     in_band b 80 /\
     (forall b', in_band b' 80 -> b' = b) /\
     getSimilarityColor 80 = colorToken b /\
     getTemperatureEmoji 80 = glyph b /\
     (forall b', getSimilarityColor 80 = colorToken b' -> b' = b) /\
     (forall b', getTemperatureEmoji 80 = glyph b' -> b' = b)) /\
  (forall b t,
     band_lower b = Some t ->
     getSimilarityColor t = colorToken b /\ getTemperatureEmoji t = glyph b) /\
  getSimilarityColor 80 = colorToken Band80 /\
  getTemperatureEmoji 80 = glyph Band80 /\
  getSimilarityColor (799 # 10) = colorToken Band70 /\
  getTemperatureEmoji (799 # 10) = glyph Band70.
Proof.
  apply (similarity_bands_exact 80). split; [ lra | lra ].
Defined.

(** A threshold belongs to the band it opens: 80 is in the top band and
    79.9 in the next one down; likewise for the other thresholds. *)
Example score_80_top_band :
  getSimilarityColor 80 = js "#10b981" /\ getTemperatureEmoji 80 = js "🔥🔥🔥".
Proof. split; reflexivity. Qed.

Example score_79_9_next_band :
  getSimilarityColor (799 # 10) = js "#84cc16" /\
  getTemperatureEmoji (799 # 10) = js "🔥🔥".
Proof. split; reflexivity. Qed.

(* ================================================================== *)
(** ** Percentile text *)

Lemma later_revision_from_percentile_only : from_percentile_only percentileCell.
Proof.
  intros gs gs' g g' E. unfold percentileCell. rewrite E. reflexivity.
Qed.

(** C7, as worded, fails on the earlier revision of the screen: with
    seven guesses made, two guesses that both carry no percentile are
    shown 1000/1000 and 714/1000 according to their rank. *)
Lemma earlier_revision_computes_percentile_from_rank :
  Rev1.percentileCell seven_guesses ranked_first = js "1000/1000" /\
  Rev1.percentileCell seven_guesses ranked_third = js "714/1000" /\
  ~ from_percentile_only Rev1.percentileCell.
Proof.
  assert (Rev1.percentileCell seven_guesses ranked_first = js "1000/1000") as E1
    by (vm_compute; reflexivity).
  assert (Rev1.percentileCell seven_guesses ranked_third = js "714/1000") as E3
    by (vm_compute; reflexivity).
  split; [ exact E1 | ]. split; [ exact E3 | ].
  intro H.
  specialize (H seven_guesses seven_guesses ranked_first ranked_third eq_refl).
  rewrite E1, E3 in H. vm_compute in H. discriminate.
Qed.

(** C7, amended.  In the later revision the percentile text of a guess
    row is the dash when the guess carries no percentile and the
    percentile followed by [/1000] otherwise (987 reads 987/1000); it is
    settled by the percentile alone: it stays the same when every other
    field of the guess (rank included) and the whole game state (guess
    count included) are replaced; the statistics box shows the same text
    for the top guess.  The earlier revision passes the rank and the
    guess count to its helper instead. *)
Theorem percentile_text_from_percentile_only
  (gs gs' : GameState) (g : Guess)
  (w : jsstring) (s : Q) (n r : Z) (c : bool) :
  percentileCell gs g =
    match percentile g with
    | None => js "—"
    | Some p => intToString p ++ js "/1000"
    end /\
  percentileCell gs' (mkGuess w s n r c (percentile g)) = percentileCell gs g /\
  getPercentileDisplay (percentile g) = percentileCell gs g /\
  topGuessPercentile gs = option_map (percentileCell gs) (topGuess gs) /\
  from_percentile_only percentileCell /\
  getPercentileDisplay (Some 987) = js "987/1000" /\
  getPercentileDisplay (Some 0) = js "0/1000" /\
  getPercentileDisplay None = js "—" /\
  percentileCell gs (mkGuess w s n r c (Some 1000)) = js "1000/1000" /\
  percentileCell gs (mkGuess w s n r c None) = js "—" /\
  Rev1.percentileCell gs g = Rev1.getPercentileDisplay (rank g) (guess_count gs).
Proof.
  split; [ | split; [ | split; [ | split ] ] ].
  - unfold percentileCell, getPercentileDisplay.
    destruct (percentile g); reflexivity.
  - unfold percentileCell. cbn [percentile]. reflexivity.
  - unfold percentileCell, getPercentileDisplay.
    destruct (percentile g); reflexivity.
  - unfold topGuessPercentile, percentileCell, getPercentileDisplay.
    destruct (topGuess gs) as [t | ]; simpl; [ | reflexivity ].
    destruct (percentile t); reflexivity.
  - split; [ apply later_revision_from_percentile_only | ].
    repeat split.
Qed.

(** The earlier revision did compute the text from the rank and the
    number of guesses. *)
Example rev1_percentile_text_follows_rank :
  Rev1.getPercentileDisplay 1 7 = js "1000/1000" /\
  Rev1.getPercentileDisplay 3 7 = js "714/1000".
Proof. split; reflexivity. Qed.

(** The quotient and the product are rounded as doubles before
    [Math.round]: 203/400*1000 is 507.49999999999994 there, not 507.5. *)
Example rev1_percentile_in_doubles :
  Rev1.getPercentileDisplay 198 400 = js "507/1000" /\
  Rev1.getPercentileDisplay 200 400 = js "502/1000" /\
  Rev1.getPercentileDisplay 978 2000 = js "511/1000" /\
  Rev1.getPercentileDisplay 5 0 = js "1000/1000".
Proof. repeat split; vm_compute; reflexivity. Qed.

(* ================================================================== *)
(** ** Order of the guesses list *)

Section SortFacts.

Context {A : Type}.
Variable comparefn : A -> A -> Q.

Lemma sort_insert_perm (x : A) (l : list A) :
  Permutation (sort_insert comparefn x l) (x :: l).
Proof.
  induction l as [ | y l IH ]; simpl.
  - apply Permutation_refl.
  - destruct (Qle_bool (comparefn x y) 0).
    + apply Permutation_refl.
    + apply perm_trans with (y :: x :: l).
      * apply perm_skip, IH.
      * apply perm_swap.
Qed.

Lemma Array_sort_perm (l : list A) : Permutation (Array_sort comparefn l) l.
Proof.
  induction l as [ | x l IH ]; simpl.
  - apply perm_nil.
  - apply perm_trans with (x :: Array_sort comparefn l).
    + apply sort_insert_perm.
    + apply perm_skip, IH.
Qed.

Lemma Array_sort_length (l : list A) :
  List.length (Array_sort comparefn l) = List.length l.
Proof. apply Permutation_length, Array_sort_perm. Qed.

End SortFacts.

Lemma by_similarity_le (a b : Guess) :
  Qle_bool (by_similarity a b) 0 = true <-> not_below a b.
Proof.
  unfold by_similarity, not_below. rewrite Qle_bool_iff. split; intro; lra.
Qed.

Lemma by_similarity_gt (a b : Guess) :
  Qle_bool (by_similarity a b) 0 = false -> (similarity a < similarity b)%Q.
Proof.
  intro H. apply Qnot_le_lt. intro L.
  assert (Qle_bool (by_similarity a b) 0 = true) as T
    by (apply by_similarity_le; exact L).
  congruence.
Qed.

Lemma sort_insert_sorted (x : Guess) (l : list Guess) :
  StronglySorted not_below l ->
  StronglySorted not_below (sort_insert by_similarity x l).
Proof.
  induction 1 as [ | y l S IH F ]; simpl.
  - constructor; constructor.
  - destruct (Qle_bool (by_similarity x y) 0) eqn:E.
    + apply by_similarity_le in E.
      constructor; [ constructor; assumption | ].
      constructor; [ exact E | ].
      eapply Forall_impl; [ | exact F ].
      unfold not_below in *. intros z Hz. lra.
    + apply by_similarity_gt in E.
      constructor; [ exact IH | ].
      apply (Permutation_Forall (Permutation_sym (sort_insert_perm _ x l))).
      constructor; [ unfold not_below; lra | exact F ].
Qed.

Lemma Array_sort_sorted (l : list Guess) :
  StronglySorted not_below (Array_sort by_similarity l).
Proof.
  induction l as [ | x l IH ]; simpl.
  - constructor.
  - apply sort_insert_sorted, IH.
Qed.

Lemma sort_insert_stable (q : Q) (x : Guess) (l : list Guess) :
  with_similarity q (sort_insert by_similarity x l) = with_similarity q (x :: l).
Proof.
  unfold with_similarity.
  induction l as [ | y l IH ]; [ reflexivity | ].
  cbn [sort_insert].
  destruct (Qle_bool (by_similarity x y) 0) eqn:E; [ reflexivity | ].
  apply by_similarity_gt in E.
  cbn [filter] in *. rewrite IH.
  destruct (Qeq_bool (similarity x) q) eqn:Ex;
    destruct (Qeq_bool (similarity y) q) eqn:Ey; try reflexivity.
  apply Qeq_bool_iff in Ex, Ey. exfalso. lra.
Qed.

Lemma Array_sort_stable (q : Q) (l : list Guess) :
  with_similarity q (Array_sort by_similarity l) = with_similarity q l.
Proof.
  induction l as [ | x l IH ]; [ reflexivity | ].
  cbn [Array_sort fold_right].
  rewrite sort_insert_stable.
  unfold with_similarity in *. cbn [filter].
  fold (Array_sort by_similarity l). rewrite IH. reflexivity.
Qed.

(** C1, as worded, fails: the comparator never looks at the rank. *)
Lemma ties_are_not_ordered_by_rank : ~ ordered_as_specified tied_guesses.
Proof.
  intros [_ T].
  specialize (T 0%nat 1%nat
                (mkGuess (js "dog") (452 # 10) 1 121 false None)
                (mkGuess (js "cat") (452 # 10) 2 120 false None)).
  cbn in T.
  assert (121 <= 120) as H; [ | lia ].
  apply T; [ lia | reflexivity | reflexivity | reflexivity ].
Qed.

(** C1, amended.  The displayed list holds exactly the stored guesses,
    in descending order of similarity whatever the stored order, and
    guesses of equal similarity keep the order they have in the stored
    list. *)
Theorem displayed_guesses_sorted_stable (gs : GameState) :
  Permutation (displayedGuesses gs) (guesses gs) /\
  StronglySorted not_below (displayedGuesses gs) /\
  (forall q : Q,
     with_similarity q (displayedGuesses gs) = with_similarity q (guesses gs)).
Proof.
  unfold displayedGuesses.
  change (fun a b : Guess => (similarity b - similarity a)%Q) with by_similarity.
  split; [ apply Array_sort_perm | ].
  split; [ apply Array_sort_sorted | ].
  intro q. apply Array_sort_stable.
Qed.

(* ================================================================== *)
(** ** Transport *)

(** C10.  [checkHealth] always returns a boolean and never throws; the
    boolean is [true] exactly when the request resolved with a status
    between 200 and 299, hence [false] for any other status and for a
    rejected request; the hook cells are not touched. *)
Theorem checkHealth_total (env : Env) (w : World) :
  exists (w' : World) (b : bool),
    checkHealth env w = (w', inr b) /\
    hooks w' = hooks w /\
    (b = true <->
     exists response,
       healthOutcome env = Resolved response /\
       200 <= status response <= 299).
Proof.
  unfold checkHealth, try_catch, bind, fetch, perform, ret.
  destruct (healthOutcome env) as [e | response]; simpl.
  - eexists. exists false. split; [ reflexivity | ].
    split; [ reflexivity | ].
    split; [ discriminate | intros [r [H _]]; discriminate ].
  - eexists. exists (ok response). split; [ reflexivity | ].
    split; [ reflexivity | ].
    unfold ok. rewrite andb_true_iff, !Z.leb_le. split.
    + intro H. exists response. split; [ reflexivity | exact H ].
    + intros [r [H R]]. inversion H; subst. exact R.
Qed.

(** *** [trim] *)

Lemma trimStart_clean (s : jsstring) : starts_clean (trimStart s) = true.
Proof.
  induction s as [ | c s IH ]; simpl; [ reflexivity | ].
  destruct (isWhiteSpace c) eqn:E; [ exact IH | simpl; rewrite E; reflexivity ].
Qed.

Lemma trimStart_id (s : jsstring) : starts_clean s = true -> trimStart s = s.
Proof.
  destruct s as [ | c s ]; simpl; [ reflexivity | ].
  destruct (isWhiteSpace c); [ discriminate | reflexivity ].
Qed.

Lemma trimStart_split (s : jsstring) :
  exists pre, s = pre ++ trimStart s /\ forallb isWhiteSpace pre = true.
Proof.
  induction s as [ | c s [pre [E F]] ]; simpl.
  - exists []. split; reflexivity.
  - destruct (isWhiteSpace c) eqn:W.
    + exists (c :: pre). simpl. rewrite W, F. split; [ f_equal; exact E | reflexivity ].
    + exists []. split; reflexivity.
Qed.

Lemma trimStart_snoc (s : jsstring) (c : N) :
  isWhiteSpace c = false -> trimStart (s ++ [c]) = trimStart s ++ [c].
Proof.
  intro W. induction s as [ | d s IH ]; simpl.
  - rewrite W. reflexivity.
  - destruct (isWhiteSpace d); [ exact IH | reflexivity ].
Qed.

Lemma trimEnd_clean (s : jsstring) : ends_clean (trimEnd s) = true.
Proof.
  unfold ends_clean, trimEnd. rewrite rev_involutive. apply trimStart_clean.
Qed.

Lemma trimEnd_keeps_start (s : jsstring) :
  starts_clean s = true -> starts_clean (trimEnd s) = true.
Proof.
  destruct s as [ | c s ]; [ reflexivity | ].
  simpl. intro W. apply negb_true_iff in W.
  unfold trimEnd. simpl. rewrite trimStart_snoc by exact W.
  rewrite rev_app_distr. simpl. rewrite W. reflexivity.
Qed.

Lemma trimEnd_split (s : jsstring) :
  exists post, s = trimEnd s ++ post /\ forallb isWhiteSpace post = true.
Proof.
  destruct (trimStart_split (rev s)) as [pre [E F]].
  exists (rev pre). split.
  - unfold trimEnd. rewrite <- rev_app_distr, <- E. symmetry. apply rev_involutive.
  - rewrite forallb_forall in *. intros x Hx. apply F, in_rev, Hx.
Qed.

Lemma trimEnd_id (s : jsstring) : ends_clean s = true -> trimEnd s = s.
Proof.
  unfold ends_clean, trimEnd. intro H.
  rewrite trimStart_id by exact H. apply rev_involutive.
Qed.

Lemma trim_clean (s : jsstring) :
  starts_clean (trim s) = true /\ ends_clean (trim s) = true.
Proof.
  unfold trim. split.
  - apply trimEnd_keeps_start, trimStart_clean.
  - apply trimEnd_clean.
Qed.

Lemma trim_split (s : jsstring) :
  exists pre post,
    s = pre ++ trim s ++ post /\
    forallb isWhiteSpace pre = true /\ forallb isWhiteSpace post = true.
Proof.
  destruct (trimStart_split s) as [pre [E F]].
  destruct (trimEnd_split (trimStart s)) as [post [E' F']].
  exists pre, post. unfold trim. rewrite <- E', <- E. auto.
Qed.

Lemma trim_idempotent (s : jsstring) : trim (trim s) = trim s.
Proof.
  destruct (trim_clean s) as [H1 H2].
  unfold trim at 1. rewrite trimStart_id by exact H1. apply trimEnd_id, H2.
Qed.

Lemma trim_whitespace_only (s : jsstring) :
  forallb isWhiteSpace s = true -> trim s = [].
Proof.
  intro H. unfold trim.
  assert (trimStart s = []) as E.
  { induction s as [ | c s IH ]; simpl in *; [ reflexivity | ].
    apply andb_true_iff in H. destruct H as [W H]. rewrite W. apply IH, H. }
  rewrite E. reflexivity.
Qed.

Lemma trim_empty_whitespace_only (s : jsstring) :
  trim s = [] -> forallb isWhiteSpace s = true.
Proof.
  intro H. destruct (trim_split s) as [pre [post [E [F1 F2]]]].
  rewrite H in E. simpl in E. subst s.
  rewrite forallb_app, F1, F2. reflexivity.
Qed.

Example trim_lower_example : trim (asciiLower (js "  DoG ")) = js "dog".
Proof. reflexivity. Qed.

Section ClientFacts.

Variable toLowerCase : jsstring -> jsstring.

(** C8.  Whatever word it is given, [makeGuess] sends one request, a
    POST to the guess endpoint whose [word] is the lower-cased word with
    the surrounding white space removed: nothing but white space was cut
    off at either end, and none is left there. *)
Theorem makeGuess_sends_normalized_word
  (gameId word : jsstring) (env : Env) (w : World) :
  requests (effects (fst (makeGuess toLowerCase gameId word env w))) =
    requests (effects w) ++
    [ {| method := POST;
         url := API_BASE_URL ++ API_ENDPOINTS.MAKE_GUESS;
         body := GuessBody gameId (trim (toLowerCase word)) |} ] /\
  (exists pre post,
     toLowerCase word = pre ++ trim (toLowerCase word) ++ post /\
     forallb isWhiteSpace pre = true /\ forallb isWhiteSpace post = true) /\
  starts_clean (trim (toLowerCase word)) = true /\
  ends_clean (trim (toLowerCase word)) = true.
Proof.
  split; [ | split; [ apply trim_split | apply trim_clean ] ].
  unfold makeGuess, bind, fetch, await_json, get_detail, throw, ret, requests.
  destruct (guessOutcome env) as [e | response]; simpl.
  - rewrite flat_map_app. reflexivity.
  - destruct (ok response); simpl.
    + rewrite flat_map_app. reflexivity.
    + destruct (json_error response) as [e | [ | detail ] ]; simpl;
        rewrite flat_map_app; reflexivity.
Qed.

End ClientFacts.

(** *** Error messages *)

(** C9, as worded, fails: an empty [detail] is replaced by the fallback,
    and a body that is not JSON surfaces the parser's own error. *)
Lemma detail_not_always_surfaced :
  ~ surfaces_detail_or_fallback asciiLower
      (OpMakeGuess (js "g1") (js "dog")) env_empty_detail emptyWorld /\
  ~ surfaces_detail_or_fallback asciiLower
      (OpMakeGuess (js "g1") (js "dog")) env_html_body emptyWorld.
Proof.
  split; intro H.
  - specialize (H 400 (inr (BodyWith (VString []))) eq_refl).
    assert (~ 200 <= 400 <= 299) as S by lia.
    specialize (H S). vm_compute in H. discriminate.
  - specialize (H 502 (inl (JsError (js "JSON Parse error: Unexpected token: <"))) eq_refl).
    assert (~ 200 <= 502 <= 299) as S by lia.
    specialize (H S). vm_compute in H. discriminate.
Qed.

Lemma not_ok {A : Type} (response : Response A) :
  ~ 200 <= status response <= 299 -> ok response = false.
Proof.
  intro H. unfold ok. apply not_true_is_false. intro T.
  apply andb_true_iff in T. rewrite !Z.leb_le in T. tauto.
Qed.

(** C9, amended.  When an operation gets a status outside 200-299 and
    the body parses to a JSON value other than [null], the error thrown
    carries the [detail] of the body verbatim if that is a non-empty
    string (or the string form of a truthy non-string value), and the
    fallback message of the operation if [detail] is missing, empty or
    otherwise falsy. *)
Theorem transport_error_message
  (toLowerCase : jsstring -> jsstring) (op : Operation) (env : Env) (w : World)
  (st : Z) (detail : JsValue) :
  reply op env = Some (st, inr (BodyWith detail)) ->
  ~ (200 <= st <= 299) ->
  thrownBy toLowerCase op env w =
    Some (JsError (match detail with
                   | VString (c :: s) => c :: s
                   | VOther rendering => rendering
                   | VString [] | VUndefined | VNull | VFalse | VZero =>
                       fallbackMessage op
                   end)).
Proof.
  intros R S.
  destruct op; simpl in R |- *;
    unfold startGame, makeGuess, getGameState, giveUp, getClue,
      failure, bind, fetch, await_json, get_detail, throw, ret;
    match type of R with
    | replyOf ?o = _ => destruct o as [e | response]; simpl in R; [ discriminate | ]
    end;
    inversion R as [[Hst Hbody]]; subst st;
    rewrite (not_ok response S); simpl; rewrite Hbody; simpl;
    destruct detail as [ | | | | [ | c s] | r ]; reflexivity.
Qed.

Lemma transport_error_message_game_not_found :
  thrownBy asciiLower (OpMakeGuess (js "g1") (js "dog"))
    env_game_not_found emptyWorld = Some (JsError (js "Game not found")).
Proof.
  apply (transport_error_message asciiLower (OpMakeGuess (js "g1") (js "dog"))
           env_game_not_found emptyWorld 404 (VString (js "Game not found")));
    [ reflexivity | lia ].
Defined.

(* ================================================================== *)
(** ** Submitting a guess *)

Lemma with_error_same (r : Hooks) : with_error (error r) r = r.
Proof. destruct r; reflexivity. Qed.

Section ControllerFacts.

Variable toLowerCase : jsstring -> jsstring.

(** Unfolding of the monad and of the setters, leaving literals alone. *)
Ltac run_async :=
  cbv beta iota zeta delta
    [run handleGuess handleGetClue handleGiveUp initializeGame startNewGame
     checkHealth startGame makeGuess getGameState giveUp getClue
     try_catch_finally try_catch bind fetch await_json get_detail throw ret
     setLoading setError setGameState setGuessInput setApiConnected
     setCluesUsed setCurrentClue setTimeout alert confirm perform update
     negb fst snd hooks effects].

Ltac tidy := cbn [fst snd hooks effects app flat_map forallb isFetch andb requests].

(** X24.  With an input that is empty or all white space, with no game
    state, or while [loading] is set, [handleGuess] does nothing: the
    hook cells are as before and no effect (no request in particular) is
    performed. *)
Theorem handleGuess_noop (env : Env) (r : Hooks) :
  forallb isWhiteSpace (guessInput r) = true \/
  gameState r = None \/
  loading r = true ->
  run (handleGuess toLowerCase) env r = (r, []).
Proof.
  unfold run, handleGuess.
  intros [H | [H | H]].
  - rewrite (trim_whitespace_only _ H). reflexivity.
  - rewrite H. destruct (negb (truthy_string (trim (guessInput r)))); reflexivity.
  - rewrite H. destruct (negb (truthy_string (trim (guessInput r))));
      [ | destruct (gameState r) ]; reflexivity.
Qed.

(** Conversely a request goes out whenever none of the three holds. *)
Lemma handleGuess_sends (env : Env) (r : Hooks) (gs : GameState) :
  forallb isWhiteSpace (guessInput r) = false ->
  gameState r = Some gs ->
  loading r = false ->
  exists rest,
    requests (snd (run (handleGuess toLowerCase) env r)) =
      {| method := POST;
         url := API_BASE_URL ++ API_ENDPOINTS.MAKE_GUESS;
         body := GuessBody (game_id gs) (trim (toLowerCase (guessInput r))) |}
      :: rest.
Proof.
  intros W G L.
  assert (truthy_string (trim (guessInput r)) = true) as T.
  { destruct (trim (guessInput r)) eqn:E; [ | reflexivity ].
    apply trim_empty_whitespace_only in E. congruence. }
  run_async. rewrite T, G, L.
  destruct (guessOutcome env) as [e | response]; [ tidy; eauto | ].
  destruct (ok response).
  - destruct (json_payload response) as [e | result]; [ tidy; eauto | ].
    destruct (stateOutcome env) as [e | response']; [ tidy; eauto | ].
    destruct (ok response').
    + destruct (json_payload response') as [e | st]; [ tidy; eauto | ].
      destruct (resp_is_correct result); tidy; eauto.
    + destruct (json_error response') as [e | [ | d]]; tidy; eauto.
  - destruct (json_error response) as [e | [ | d]]; tidy; eauto.
Qed.

(** C4.  When the guess exchange or the refresh that follows it fails,
    [handleGuess] returns with every hook cell as before except [error]:
    the game state, hence the guesses and the guess count, is the one
    before the call, and nothing but requests was performed (no timer,
    no alert). *)
Theorem failed_guess_leaves_session_unchanged (env : Env) (r : Hooks) :
  request_fails (guessOutcome env) \/ request_fails (stateOutcome env) ->
  (exists msg, fst (run (handleGuess toLowerCase) env r) = with_error msg r) /\
  gameState (fst (run (handleGuess toLowerCase) env r)) = gameState r /\
  option_map guesses (gameState (fst (run (handleGuess toLowerCase) env r))) =
    option_map guesses (gameState r) /\
  option_map guess_count (gameState (fst (run (handleGuess toLowerCase) env r))) =
    option_map guess_count (gameState r) /\
  forallb isFetch (snd (run (handleGuess toLowerCase) env r)) = true.
Proof.
  intro F.
  assert ((exists msg, fst (run (handleGuess toLowerCase) env r) = with_error msg r) /\
          forallb isFetch (snd (run (handleGuess toLowerCase) env r)) = true)
    as [[msg E] Fs].
  { run_async.
    destruct (truthy_string (trim (guessInput r))).
    2: { split; [ exists (error r); symmetry; apply with_error_same | reflexivity ]. }
    destruct (gameState r) as [gs | ] eqn:G.
    2: { split; [ exists (error r); symmetry; apply with_error_same | reflexivity ]. }
    destruct (loading r) eqn:L.
    { split; [ exists (error r); symmetry; apply with_error_same | reflexivity ]. }
    unfold with_error, with_loading, with_gameState, with_guessInput.
    cbn [gameState guessInput loading apiConnected error cluesUsed currentClue].
    rewrite L.
    destruct (guessOutcome env) as [e | response].
    { split; [ eexists; reflexivity | reflexivity ]. }
    destruct (ok response) eqn:K.
    2: { destruct (json_error response) as [e | [ | d]];
           (split; [ eexists; reflexivity | reflexivity ]). }
    destruct (json_payload response) as [e | result] eqn:P.
    { split; [ eexists; reflexivity | reflexivity ]. }
    destruct (stateOutcome env) as [e | response'].
    { split; [ eexists; reflexivity | reflexivity ]. }
    destruct (ok response') eqn:K'.
    2: { destruct (json_error response') as [e | [ | d]];
           (split; [ eexists; reflexivity | reflexivity ]). }
    destruct (json_payload response') as [e | st] eqn:P'.
    { split; [ eexists; reflexivity | reflexivity ]. }
    exfalso. simpl in F.
    destruct F as [[F | [e F]] | [F | [e F]]]; congruence. }
  split; [ exists msg; exact E | ].
  rewrite E. repeat split; try reflexivity. exact Fs.
Qed.

(* ================================================================== *)
(** ** Clues *)

Lemma keeps_ret {A : Type} (a : A) : keeps_clues (ret a).
Proof. intros env w. reflexivity. Qed.

Lemma keeps_throw {A : Type} (e : exn) : keeps_clues (@throw A e).
Proof. intros env w. reflexivity. Qed.

Lemma keeps_perform (e : Effect) : keeps_clues (perform e).
Proof. intros env w. reflexivity. Qed.

Lemma keeps_fetch {A : Type} (o : Env -> FetchOutcome A) (q : Request) :
  keeps_clues (fetch o q).
Proof. intros env w. reflexivity. Qed.

Lemma keeps_await_json {A : Type} (r : exn + A) : keeps_clues (await_json r).
Proof. intros env w. reflexivity. Qed.

Lemma keeps_get_detail (b : ErrorBody) : keeps_clues (get_detail b).
Proof. intros env w. destruct b; reflexivity. Qed.

Lemma keeps_confirm (text : jsstring) : keeps_clues (confirm text).
Proof. intros env w. reflexivity. Qed.

Lemma keeps_update (f : Hooks -> Hooks) :
  (forall h, cluesUsed (f h) = cluesUsed h) -> keeps_clues (update f).
Proof. intros H env w. apply H. Qed.

Lemma keeps_bind {A B : Type} (c : Async A) (k : A -> Async B) :
  keeps_clues c -> (forall a, keeps_clues (k a)) -> keeps_clues (bind c k).
Proof.
  intros Hc Hk env w. unfold bind.
  specialize (Hc env w). destruct (c env w) as [w1 [e | a]]; simpl in *.
  - exact Hc.
  - rewrite (Hk a env w1). exact Hc.
Qed.

Lemma keeps_try_catch {A : Type} (body : Async A) (handler : exn -> Async A) :
  keeps_clues body -> (forall e, keeps_clues (handler e)) ->
  keeps_clues (try_catch body handler).
Proof.
  intros Hb Hh env w. unfold try_catch.
  specialize (Hb env w). destruct (body env w) as [w1 [e | a]]; simpl in *.
  - rewrite (Hh e env w1). exact Hb.
  - exact Hb.
Qed.

Lemma keeps_try_catch_finally {A : Type} (body : Async A)
  (handler : exn -> Async A) (finalizer : Async unit) :
  keeps_clues body -> (forall e, keeps_clues (handler e)) ->
  keeps_clues finalizer ->
  keeps_clues (try_catch_finally body handler finalizer).
Proof.
  intros Hb Hh Hf env w. unfold try_catch_finally.
  pose proof (keeps_try_catch body handler Hb Hh env w) as H.
  destruct (try_catch body handler env w) as [w1 r]. simpl in H.
  specialize (Hf env w1). destruct (finalizer env w1) as [w2 [e | u]]; simpl in *;
    congruence.
Qed.

Create HintDb keeps discriminated.
#[local] Hint Resolve keeps_ret keeps_throw keeps_perform keeps_fetch
  keeps_await_json keeps_get_detail keeps_confirm keeps_bind keeps_try_catch
  keeps_try_catch_finally : keeps.

Ltac keeps :=
  repeat first
    [ progress intros
    | apply keeps_bind
    | apply keeps_try_catch_finally
    | apply keeps_try_catch
    | apply keeps_update; intros; reflexivity
    | solve [ auto with keeps ]
    | match goal with
      | |- keeps_clues (if ?b then _ else _) => destruct b
      | |- keeps_clues (match ?x with _ => _ end) => destruct x
      end ].

Lemma keeps_startGame (d : Difficulty) (m : bool) : keeps_clues (startGame d m).
Proof. unfold startGame. keeps. Qed.

Lemma keeps_makeGuess (g x : jsstring) : keeps_clues (makeGuess toLowerCase g x).
Proof. unfold makeGuess. keeps. Qed.

Lemma keeps_getGameState (g : jsstring) : keeps_clues (getGameState g).
Proof. unfold getGameState. keeps. Qed.

Lemma keeps_giveUp (g : jsstring) : keeps_clues (giveUp g).
Proof. unfold giveUp. keeps. Qed.

Lemma keeps_checkHealth : keeps_clues checkHealth.
Proof. unfold checkHealth. keeps. Qed.

#[local] Hint Resolve keeps_startGame keeps_makeGuess keeps_getGameState
  keeps_giveUp keeps_checkHealth : keeps.

Lemma keeps_startNewGame (m : bool) : keeps_clues (startNewGame m).
Proof.
  unfold startNewGame, setLoading, setError, setGameState, setGuessInput. keeps.
Qed.

#[local] Hint Resolve keeps_startNewGame : keeps.

Lemma keeps_initializeGame : keeps_clues initializeGame.
Proof.
  unfold initializeGame, setApiConnected, setLoading, setError, setGameState,
    setGuessInput.
  keeps.
Qed.

Lemma keeps_handleGuess (r : Hooks) : keeps_clues (handleGuess toLowerCase r).
Proof.
  unfold handleGuess, setLoading, setError, setGameState, setGuessInput,
    setTimeout.
  keeps.
Qed.

Lemma keeps_handleGiveUp (r : Hooks) : keeps_clues (handleGiveUp r).
Proof. unfold handleGiveUp, alert, setError. keeps. Qed.

Lemma run_keeps (handler : Hooks -> Async unit) (env : Env) (h : Hooks) :
  keeps_clues (handler h) ->
  cluesUsed (fst (run handler env h)) = cluesUsed h.
Proof.
  intro K. unfold run.
  specialize (K env {| hooks := h; effects := [] |}).
  destruct (handler h env {| hooks := h; effects := [] |}) as [w res].
  exact K.
Qed.

Lemma fireAll_keeps (ts : list Timer) (h : Hooks) :
  cluesUsed (fst (fireAll ts h)) = cluesUsed h.
Proof.
  unfold fireAll.
  change h with (fst (h, @nil Effect)) at 2.
  generalize (h, @nil Effect).
  induction ts as [ | tm ts IH ]; intro acc; simpl; [ reflexivity | ].
  rewrite IH. destruct acc as [h0 es0]. simpl.
  destruct (callback tm); reflexivity.
Qed.

Lemma handleGetClue_result (env : Env) (r : Hooks) :
  cluesUsed (fst (run handleGetClue env r)) = cluesUsed r \/
  (cluesUsed r < 3 /\
   servedClueNumber env = Some (cluesUsed (fst (run handleGetClue env r)))).
Proof.
  unfold servedClueNumber. run_async.
  destruct (gameState r) as [gs | ]; [ | left; reflexivity ].
  destruct (loading r); [ left; reflexivity | ].
  destruct (3 <=? cluesUsed r) eqn:C; [ left; reflexivity | ].
  apply Z.leb_gt in C.
  destruct (clueOutcome env) as [e | response]; [ left; reflexivity | ].
  destruct (ok response).
  - destruct (json_payload response) as [e | c]; [ left; reflexivity | ].
    right. split; [ exact C | reflexivity ].
  - destruct (json_error response) as [e | [ | d]]; left; reflexivity.
Qed.

Lemma handleGetClue_rejects_at_cap (env : Env) (r : Hooks) :
  3 <= cluesUsed r ->
  fst (run handleGetClue env r) = r /\
  requests (snd (run handleGetClue env r)) = [] /\
  forallb (fun e => match e with SetTimeout _ _ => false | _ => true end)
    (snd (run handleGetClue env r)) = true.
Proof.
  intro C. apply Z.leb_le in C. run_async.
  destruct (gameState r) as [gs | ]; [ | repeat split ].
  destruct (loading r); [ repeat split | ].
  rewrite C. repeat split.
Qed.

Lemma step_capped (sys : System) (a : Action) :
  clue_numbers_capped a = true ->
  cluesUsed (ui sys) <= 3 ->
  cluesUsed (ui (step toLowerCase sys a)) <= 3.
Proof.
  intros Ca Cs.
  destruct a as [env | env | text | env | env | env | dt];
    cbn [step]; unfold dispatch.
  - pose proof (run_keeps (fun _ => initializeGame) env (ui sys) keeps_initializeGame) as K.
    destruct (run (fun _ => initializeGame) env (ui sys)) as [h es].
    cbn [ui fst] in *. lia.
  - pose proof (run_keeps (fun _ => initializeGame) env (ui sys) keeps_initializeGame) as K.
    destruct (run (fun _ => initializeGame) env (ui sys)) as [h es].
    cbn [ui fst] in *. lia.
  - cbn [ui]. destruct (ui sys); exact Cs.
  - pose proof (run_keeps (handleGuess toLowerCase) env (ui sys)
                  (keeps_handleGuess (ui sys))) as K.
    destruct (run (handleGuess toLowerCase) env (ui sys)) as [h es].
    cbn [ui fst] in *. lia.
  - pose proof (handleGetClue_result env (ui sys)) as K.
    destruct (run handleGetClue env (ui sys)) as [h es].
    cbn [ui fst] in *. cbn [clue_numbers_capped] in Ca.
    destruct K as [K | [_ K]]; [ lia | ].
    rewrite K in Ca. apply Z.leb_le in Ca. exact Ca.
  - pose proof (run_keeps handleGiveUp env (ui sys) (keeps_handleGiveUp (ui sys))) as K.
    destruct (run handleGiveUp env (ui sys)) as [h es].
    cbn [ui fst] in *. lia.
  - unfold elapse.
    pose proof (fireAll_keeps
                  (Array_sort (fun a b => inject_Z (due a - due b))
                     (filter (fun tm => due tm <=? now sys + dt) (timers sys)))
                  (ui sys)) as K.
    destruct (fireAll _ (ui sys)) as [h es].
    cbn [ui fst] in *. lia.
Qed.

Lemma run_capped (actions : list Action) (sys : System) :
  forallb clue_numbers_capped actions = true ->
  cluesUsed (ui sys) <= 3 ->
  cluesUsed (ui (fold_left (step toLowerCase) actions sys)) <= 3.
Proof.
  revert sys. induction actions as [ | a actions IH ]; intros sys F C.
  - exact C.
  - cbn [forallb] in F. apply andb_true_iff in F. destruct F as [Fa F].
    cbn [fold_left]. apply IH; [ exact F | ].
    apply step_capped; assumption.
Qed.

(** C2, amended.  As long as the service numbers no clue above 3,
    [cluesUsed] is at most 3 in every state the screen can reach (the
    counter is whatever number the service reported last, it is not
    clamped by the client); and a press of the clue button with
    [cluesUsed] at 3 or more changes no cell, sends no request and arms
    no timer. *)
Theorem cluesUsed_capped_and_gated
  (actions : list Action) (env : Env) (r : Hooks) :
  forallb clue_numbers_capped actions = true ->
  3 <= cluesUsed r ->
  cluesUsed (ui (play toLowerCase actions)) <= 3 /\
  fst (run handleGetClue env r) = r /\
  requests (snd (run handleGetClue env r)) = [] /\
  forallb (fun e => match e with SetTimeout _ _ => false | _ => true end)
    (snd (run handleGetClue env r)) = true.
Proof.
  intros F C. split.
  - unfold play. apply run_capped; [ exact F | simpl; lia ].
  - apply handleGetClue_rejects_at_cap, C.
Qed.

End ControllerFacts.

(* ================================================================== *)
(** ** Concrete runs *)

Lemma handleGuess_noop_before_start :
  run (handleGuess asciiLower) offline initialHooks = (initialHooks, []).
Proof.
  apply (handleGuess_noop asciiLower offline initialHooks).
  left. reflexivity.
Defined.

Lemma failed_guess_leaves_session_unchanged_offline :
  (exists msg,
     fst (run (handleGuess asciiLower) offline ready_to_guess) =
       with_error msg ready_to_guess) /\
  gameState (fst (run (handleGuess asciiLower) offline ready_to_guess)) =
    gameState ready_to_guess /\
  option_map guesses
    (gameState (fst (run (handleGuess asciiLower) offline ready_to_guess))) =
    option_map guesses (gameState ready_to_guess) /\
  option_map guess_count
    (gameState (fst (run (handleGuess asciiLower) offline ready_to_guess))) =
    option_map guess_count (gameState ready_to_guess) /\
  forallb isFetch (snd (run (handleGuess asciiLower) offline ready_to_guess)) = true.
Proof.
  apply (failed_guess_leaves_session_unchanged asciiLower offline ready_to_guess).
  left. simpl. exact I.
Defined.

(** In that run the request did go out and the message is the one of the
    rejected [fetch]. *)
Example failed_guess_offline_run :
  run (handleGuess asciiLower) offline ready_to_guess =
    (with_error (js "Network request failed") ready_to_guess,
     [Fetch {| method := POST;
               url := js "http://localhost:8080/game/guess";
               body := GuessBody (js "g1") (js "dog") |}]).
Proof. reflexivity. Qed.

Lemma cluesUsed_capped_and_gated_three_clues :
  cluesUsed (ui (play asciiLower three_clues)) <= 3 /\
  fst (run handleGetClue (env_clue 4 (js "fourth"))
         (ui (play asciiLower three_clues))) =
    ui (play asciiLower three_clues) /\
  requests (snd (run handleGetClue (env_clue 4 (js "fourth"))
                   (ui (play asciiLower three_clues)))) = [] /\
  forallb (fun e => match e with SetTimeout _ _ => false | _ => true end)
    (snd (run handleGetClue (env_clue 4 (js "fourth"))
            (ui (play asciiLower three_clues)))) = true.
Proof.
  apply (cluesUsed_capped_and_gated asciiLower three_clues
           (env_clue 4 (js "fourth")) (ui (play asciiLower three_clues))).
  - reflexivity.
  - vm_compute. discriminate.
Defined.

(** C2, as worded, fails: the counter takes the number the service
    reports. *)
Lemma cluesUsed_exceeds_cap :
  cluesUsed (ui (play asciiLower over_numbered)) = 4 /\
  ~ clue_throttle_as_specified asciiLower.
Proof.
  assert (cluesUsed (ui (play asciiLower over_numbered)) = 4) as E
    by reflexivity.
  split; [ exact E | ].
  intros [H _]. specialize (H over_numbered). lia.
Qed.

(** What a successful press of the clue button does. *)
Lemma handleGetClue_reveal (env : Env) (r : Hooks) (gs : GameState)
  (response : Response ClueResponse) (c : ClueResponse) :
  gameState r = Some gs -> loading r = false -> cluesUsed r < 3 ->
  clueOutcome env = Resolved response -> ok response = true ->
  json_payload response = inr c ->
  run handleGetClue env r =
    (with_loading false
       (with_cluesUsed (clue_number c)
          (with_currentClue (clue c) (with_error [] (with_loading true r)))),
     [ Fetch {| method := POST;
                url := API_BASE_URL ++ js "/game/" ++ game_id gs ++ js "/clue";
                body := NoBody |};
       SetTimeout HideClue 10000 ]).
Proof.
  intros G L C O K P. apply Z.leb_gt in C.
  unfold run, handleGetClue, getClue, try_catch_finally, try_catch, bind,
    fetch, await_json.
  rewrite G, L, C, O. cbn. rewrite K. cbn. rewrite P. reflexivity.
Qed.

(** C6: the run on which the code departs from the claim.  The second
    clue is revealed at 8000 ms with both expiry timers pending; at
    10000 ms the timer of the first clue fires and clears the text of the
    second, two seconds after it was revealed, while the timer of the
    second clue is still pending. *)
Lemma stale_timer_hides_newer_clue :
  currentClue (ui (play asciiLower two_clues_8s_apart)) = js "second" /\
  now (play asciiLower two_clues_8s_apart) = 8000 /\
  timers (play asciiLower two_clues_8s_apart) =
    [ {| due := 10000; callback := HideClue |};
      {| due := 18000; callback := HideClue |} ] /\
  currentClue (ui (play asciiLower (two_clues_8s_apart ++ [Wait 2000]))) = [] /\
  now (play asciiLower (two_clues_8s_apart ++ [Wait 2000])) = 10000 /\
  timers (play asciiLower (two_clues_8s_apart ++ [Wait 2000])) =
    [ {| due := 18000; callback := HideClue |} ].
Proof. repeat split. Qed.

(* ################################################################## *)
(** * Further properties *)

(* ================================================================== *)
(** ** Presentation *)

Lemma bandOf_monotone (s s' : Q) :
  (s <= s')%Q -> heat (bandOf s) <= heat (bandOf s').
Proof.
  intro H. unfold bandOf. split_tests; simpl; try lia; exfalso; lra.
Qed.

Lemma band_of_color_or_glyph (s : Q) (b : Band) :
  getSimilarityColor s = colorToken b \/ getTemperatureEmoji s = glyph b ->
  b = bandOf s.
Proof.
  intros [H | H].
  - apply colorToken_injective. rewrite <- H. apply getSimilarityColor_band.
  - apply glyph_injective. rewrite <- H. apply getTemperatureEmoji_band.
Qed.

(** X1.  A higher score is never shown colder: if [s <= s'], the band
    whose colour or glyph is shown for [s'] is at least as hot as the one
    shown for [s]. *)
Theorem hotter_score_never_colder (s s' : Q) (b b' : Band) :
  (s <= s')%Q ->
  getSimilarityColor s = colorToken b \/ getTemperatureEmoji s = glyph b ->
  getSimilarityColor s' = colorToken b' \/ getTemperatureEmoji s' = glyph b' ->
  heat b <= heat b'.
Proof.
  intros L H H'.
  rewrite (band_of_color_or_glyph s b H), (band_of_color_or_glyph s' b' H').
  apply bandOf_monotone, L.
Qed.

Lemma hotter_score_never_colder_45_62 : heat Band40 <= heat Band60.
Proof.
  apply (hotter_score_never_colder (452 # 10) 62 Band40 Band60).
  - unfold Qle. simpl. lia.
  - left. reflexivity.
  - right. reflexivity.
Defined.

(** X2.  Scores outside 0..100 are not rejected: a negative score gets
    the coldest colour and glyph, a score above 100 the hottest. *)
Theorem scores_outside_range (s : Q) :
  (s < 0)%Q \/ (100 < s)%Q ->
  getSimilarityColor s = colorToken (if Qle_bool 0 s then Band80 else BandElse) /\
  getTemperatureEmoji s = glyph (if Qle_bool 0 s then Band80 else BandElse).
Proof.
  intro H.
  rewrite getSimilarityColor_band, getTemperatureEmoji_band.
  assert (bandOf s = if Qle_bool 0 s then Band80 else BandElse) as E.
  { destruct (Qle_bool 0 s) eqn:Z0.
    - apply Qle_bool_iff in Z0.
      unfold bandOf. split_tests; try reflexivity; exfalso; lra.
    - assert (s < 0)%Q as N.
      { apply Qnot_le_lt. intro L. apply Qle_bool_iff in L. congruence. }
      unfold bandOf. split_tests; try reflexivity; exfalso; lra. }
  rewrite E. split; reflexivity.
Qed.

Lemma scores_outside_range_minus_5 :
  getSimilarityColor (-5 # 1) = js "#6b7280" /\
  getTemperatureEmoji (-5 # 1) = js "🧊".
Proof.
  apply (scores_outside_range (-5 # 1)). left. unfold Qlt. simpl. lia.
Defined.

(* ================================================================== *)
(** ** The guesses list *)

Lemma sort_insert_front (x : Guess) (l : list Guess) :
  Forall (not_below x) l -> sort_insert by_similarity x l = x :: l.
Proof.
  intro F. destruct l as [ | y l ]; [ reflexivity | ].
  cbn [sort_insert]. inversion F as [ | ? ? Hy _ ]; subst.
  apply by_similarity_le in Hy. rewrite Hy. reflexivity.
Qed.

Lemma Array_sort_sorted_id (l : list Guess) :
  StronglySorted not_below l -> Array_sort by_similarity l = l.
Proof.
  induction 1 as [ | x l S IH F ]; [ reflexivity | ].
  cbn [Array_sort fold_right]. fold (Array_sort by_similarity l).
  rewrite IH. apply sort_insert_front, F.
Qed.

(** X3.  When the stored guesses are already in descending order of
    similarity the list is displayed exactly as stored, and the guess of
    the statistics box ([guesses[0]]) is the first row displayed. *)
Theorem sorted_ledger_displayed_as_stored (gs : GameState) :
  StronglySorted not_below (guesses gs) ->
  displayedGuesses gs = guesses gs /\
  hd_error (displayedGuesses gs) = topGuess gs.
Proof.
  intro S.
  assert (displayedGuesses gs = guesses gs) as E
    by (apply Array_sort_sorted_id, S).
  split; [ exact E | ].
  rewrite E. unfold topGuess. destruct (guesses gs); reflexivity.
Qed.

Lemma sorted_ledger_displayed_as_stored_example :
  displayedGuesses sorted_guesses = guesses sorted_guesses /\
  hd_error (displayedGuesses sorted_guesses) = topGuess sorted_guesses.
Proof.
  apply (sorted_ledger_displayed_as_stored sorted_guesses).
  repeat constructor; unfold not_below, Qle; simpl; lia.
Defined.

(** X4.  The first row displayed is a stored guess that no stored guess
    beats in similarity. *)
Theorem first_displayed_is_best (gs : GameState) (g : Guess) :
  hd_error (displayedGuesses gs) = Some g ->
  In g (guesses gs) /\
  forall g', In g' (guesses gs) -> (similarity g' <= similarity g)%Q.
Proof.
  unfold displayedGuesses.
  change (fun a b : Guess => (similarity b - similarity a)%Q) with by_similarity.
  intro H.
  pose proof (Array_sort_perm by_similarity (guesses gs)) as P.
  pose proof (Array_sort_sorted (guesses gs)) as S.
  destruct (Array_sort by_similarity (guesses gs)) as [ | x l ];
    [ discriminate | ].
  cbn in H. inversion H; subst x.
  split.
  - apply (Permutation_in _ P). left. reflexivity.
  - intros g' I.
    apply (Permutation_in _ (Permutation_sym P)) in I.
    destruct I as [I | I].
    + subst g'. apply Qle_refl.
    + inversion S as [ | ? ? _ F ]; subst.
      rewrite Forall_forall in F. apply (F g' I).
Qed.

Lemma first_displayed_is_best_example :
  In (mkGuess (js "dog") (452 # 10) 1 121 false None) (guesses tied_guesses) /\
  forall g', In g' (guesses tied_guesses) ->
             (similarity g' <= 452 # 10)%Q.
Proof.
  apply (first_displayed_is_best tied_guesses
           (mkGuess (js "dog") (452 # 10) 1 121 false None)).
  reflexivity.
Defined.

(* ================================================================== *)
(** ** Transport *)

Ltac unfold_transport :=
  cbv beta iota zeta delta
    [worldAfter thrownBy returnedBy returned failure
     startGame makeGuess getGameState giveUp getClue
     bind fetch await_json get_detail throw ret negb fst snd].

(** X5.  Whatever the outcome, an operation of the transport sends
    exactly one request, the one of its endpoint, performs no other
    effect and touches no hook cell: nothing is retried. *)
Theorem transport_sends_one_request
  (toLowerCase : jsstring -> jsstring) (op : Operation) (env : Env) (w : World) :
  hooks (worldAfter toLowerCase op env w) = hooks w /\
  effects (worldAfter toLowerCase op env w) =
    effects w ++ [Fetch (requestOf toLowerCase op)].
Proof.
  destruct op; unfold_transport;
    match goal with
    | |- context [startOutcome env] => destruct (startOutcome env) as [e | response]
    | |- context [guessOutcome env] => destruct (guessOutcome env) as [e | response]
    | |- context [stateOutcome env] => destruct (stateOutcome env) as [e | response]
    | |- context [giveUpOutcome env] => destruct (giveUpOutcome env) as [e | response]
    | |- context [clueOutcome env] => destruct (clueOutcome env) as [e | response]
    end;
    try (split; reflexivity);
    destruct (ok response);
    try (split; reflexivity);
    destruct (json_error response) as [e | [ | d]]; split; reflexivity.
Qed.

Ltac pick_outcome H :=
  match type of H with
  | context [startOutcome ?env] => destruct (startOutcome env) as [e0 | response] eqn:O
  | context [guessOutcome ?env] => destruct (guessOutcome env) as [e0 | response] eqn:O
  | context [stateOutcome ?env] => destruct (stateOutcome env) as [e0 | response] eqn:O
  | context [giveUpOutcome ?env] => destruct (giveUpOutcome env) as [e0 | response] eqn:O
  | context [clueOutcome ?env] => destruct (clueOutcome env) as [e0 | response] eqn:O
  end.

Lemma is_ok {A : Type} (response : Response A) :
  200 <= status response <= 299 -> ok response = true.
Proof.
  intro H. unfold ok. apply andb_true_iff. rewrite !Z.leb_le. exact H.
Qed.

(** X6.  On a success status an operation resolves with exactly what
    reading the body gives, and throws what that reading rejects with;
    the error path is not entered. *)
Theorem transport_success
  (toLowerCase : jsstring -> jsstring) (op : Operation) (env : Env) (w : World)
  (st : Z) (read : exn + Payload) :
  payloadRead op env = Some (st, read) ->
  200 <= st <= 299 ->
  match read with
  | inl e =>
      thrownBy toLowerCase op env w = Some e /\
      returnedBy toLowerCase op env w = None
  | inr p =>
      thrownBy toLowerCase op env w = None /\
      returnedBy toLowerCase op env w = Some p
  end.
Proof.
  intros R S.
  destruct op; cbn [payloadRead] in R; pick_outcome R;
    cbn [readOf] in R; try discriminate;
    inversion R; subst; clear R;
    unfold_transport; rewrite O, (is_ok response S);
    destruct (json_payload response); split; reflexivity.
Qed.

Lemma transport_success_clue :
  thrownBy asciiLower (OpGetClue (js "g1")) (env_clue 1 (js "first")) emptyWorld
    = None /\
  returnedBy asciiLower (OpGetClue (js "g1")) (env_clue 1 (js "first")) emptyWorld
    = Some (CluePayload {| clue_game_id := js "g1"; clue := js "first";
                           clue_number := 1; remaining_clues := 2 |}).
Proof.
  apply (transport_success asciiLower (OpGetClue (js "g1"))
           (env_clue 1 (js "first")) emptyWorld 200
           (inr (CluePayload {| clue_game_id := js "g1"; clue := js "first";
                                clue_number := 1; remaining_clues := 2 |})));
    [ reflexivity | lia ].
Defined.

(** X7.  When [fetch] itself rejects, the operation throws that very
    exception and resolves with nothing. *)
Theorem transport_rejection_propagates
  (toLowerCase : jsstring -> jsstring) (op : Operation) (env : Env) (w : World)
  (e : exn) :
  rejection op env = Some e ->
  thrownBy toLowerCase op env w = Some e /\
  returnedBy toLowerCase op env w = None.
Proof.
  intro R.
  destruct op; cbn [rejection] in R; pick_outcome R;
    cbn [rejectionOf] in R; try discriminate;
    inversion R; subst; clear R;
    unfold_transport; rewrite O; split; reflexivity.
Qed.

Lemma transport_rejection_propagates_offline :
  thrownBy asciiLower (OpGiveUp (js "g1")) offline emptyWorld
    = Some (JsError (js "Network request failed")) /\
  returnedBy asciiLower (OpGiveUp (js "g1")) offline emptyWorld = None.
Proof.
  apply (transport_rejection_propagates asciiLower (OpGiveUp (js "g1"))
           offline emptyWorld (JsError (js "Network request failed"))).
  reflexivity.
Defined.

(** X8.  On a status outside 200-299 an operation never resolves: it
    always throws, and when the error body cannot be read the exception
    is the one of the failed reading, not the fallback message. *)
Theorem transport_non_success_throws
  (toLowerCase : jsstring -> jsstring) (op : Operation) (env : Env) (w : World)
  (st : Z) (parsed : exn + ErrorBody) :
  reply op env = Some (st, parsed) ->
  ~ (200 <= st <= 299) ->
  returnedBy toLowerCase op env w = None /\
  exists e,
    thrownBy toLowerCase op env w = Some e /\
    (forall e', parsed = inl e' -> e = e').
Proof.
  intros R S.
  destruct op; cbn [reply] in R; pick_outcome R;
    cbn [replyOf] in R; try discriminate;
    inversion R; subst; clear R;
    unfold_transport; rewrite O, (not_ok response S);
    destruct (json_error response) as [e | [ | d]];
    (split; [ reflexivity | ]);
    eexists; (split; [ reflexivity | ]);
    intros e' E; congruence.
Qed.

Lemma transport_non_success_throws_html :
  returnedBy asciiLower (OpMakeGuess (js "g1") (js "dog")) env_html_body emptyWorld
    = None /\
  exists e,
    thrownBy asciiLower (OpMakeGuess (js "g1") (js "dog")) env_html_body emptyWorld
      = Some e /\
    (forall e',
       @inl exn ErrorBody (JsError (js "JSON Parse error: Unexpected token: <"))
         = inl e' ->
       e = e').
Proof.
  apply (transport_non_success_throws asciiLower
           (OpMakeGuess (js "g1") (js "dog")) env_html_body emptyWorld 502
           (inl (JsError (js "JSON Parse error: Unexpected token: <"))));
    [ reflexivity | lia ].
Defined.

(* ================================================================== *)
(** ** Controller: starting *)

Ltac unfold_controller :=
  cbv beta iota zeta delta
    [run handleGuess handleGetClue handleGiveUp initializeGame startNewGame
     checkHealth startGame makeGuess getGameState giveUp getClue
     try_catch_finally try_catch bind fetch await_json get_detail throw ret
     setLoading setError setGameState setGuessInput setApiConnected
     setCluesUsed setCurrentClue setTimeout alert confirm perform update
     negb fst snd hooks effects].

Ltac tidy_effects :=
  cbn [fst snd hooks effects app flat_map forallb andb requests].

(** X9.  When the health check does not succeed (a rejected request or a
    status outside 200-299) [initializeGame] only records that the
    service is not connected: no game is requested, every other cell is
    as before, and the screen is the server-down notice. *)
Theorem initializeGame_unreachable (env : Env) (r : Hooks) :
  healthy env = false ->
  fst (run (fun _ => initializeGame) env r) = with_apiConnected (Some false) r /\
  requests (snd (run (fun _ => initializeGame) env r)) =
    [ {| method := GET; url := js "http://localhost:8080/"; body := NoBody |} ] /\
  render (fst (run (fun _ => initializeGame) env r)) = ServerDownScreen.
Proof.
  unfold healthy. intro H. unfold_controller.
  destruct (healthOutcome env) as [e | response].
  - repeat split.
  - rewrite H. repeat split.
Qed.

Lemma initializeGame_unreachable_offline :
  fst (run (fun _ => initializeGame) offline initialHooks) =
    with_apiConnected (Some false) initialHooks /\
  requests (snd (run (fun _ => initializeGame) offline initialHooks)) =
    [ {| method := GET; url := js "http://localhost:8080/"; body := NoBody |} ] /\
  render (fst (run (fun _ => initializeGame) offline initialHooks)) =
    ServerDownScreen.
Proof.
  apply (initializeGame_unreachable offline initialHooks). reflexivity.
Defined.

(** X10.  When the health check succeeds and the start request is
    answered with a game, [initializeGame] installs that game, empties
    the input and the error, releases [loading] and shows the game
    screen; it sent the health check and then one start request for a
    normal daily game.  The clue counter and the clue text are not
    reset. *)
Theorem initializeGame_starts_game (env : Env) (r : Hooks) (newGame : GameState) :
  healthy env = true ->
  answers (startOutcome env) newGame ->
  fst (run (fun _ => initializeGame) env r) =
    {| gameState := Some newGame; guessInput := []; loading := false;
       apiConnected := Some true; error := [];
       cluesUsed := cluesUsed r; currentClue := currentClue r |} /\
  requests (snd (run (fun _ => initializeGame) env r)) =
    [ {| method := GET; url := js "http://localhost:8080/"; body := NoBody |};
      {| method := POST; url := js "http://localhost:8080/game/start";
         body := StartBody normal true |} ] /\
  render (fst (run (fun _ => initializeGame) env r)) = GameScreen newGame.
Proof.
  unfold healthy. intros H [response [O [K P]]]. unfold_controller.
  destruct (healthOutcome env) as [e | hr]; [ discriminate | ].
  rewrite H, O, K, P. repeat split.
Qed.

Lemma initializeGame_starts_game_up :
  fst (run (fun _ => initializeGame) env_up initialHooks) =
    {| gameState := Some fresh_game; guessInput := []; loading := false;
       apiConnected := Some true; error := [];
       cluesUsed := cluesUsed initialHooks;
       currentClue := currentClue initialHooks |} /\
  requests (snd (run (fun _ => initializeGame) env_up initialHooks)) =
    [ {| method := GET; url := js "http://localhost:8080/"; body := NoBody |};
      {| method := POST; url := js "http://localhost:8080/game/start";
         body := StartBody normal true |} ] /\
  render (fst (run (fun _ => initializeGame) env_up initialHooks)) =
    GameScreen fresh_game.
Proof.
  apply (initializeGame_starts_game env_up initialHooks fresh_game).
  - reflexivity.
  - eexists. split; [ reflexivity | split; reflexivity ].
Defined.

(** X11.  When the health check succeeds but the start request fails,
    [initializeGame] records the connection, keeps the game state it
    found, releases [loading] and puts in [error] the message of the
    exception that [startGame] threw (the fallback text if what was
    thrown is not an [Error]); the health check and one start request
    were sent. *)
Theorem initializeGame_start_failure
  (toLowerCase : jsstring -> jsstring) (env : Env) (r : Hooks) (w : World) :
  healthy env = true ->
  request_fails (startOutcome env) ->
  exists e,
    thrownBy toLowerCase (OpStartGame normal true) env w = Some e /\
    fst (run (fun _ => initializeGame) env r) =
      {| gameState := gameState r; guessInput := guessInput r;
         loading := false; apiConnected := Some true;
         error := message_or e (js "Failed to start game");
         cluesUsed := cluesUsed r; currentClue := currentClue r |} /\
    requests (snd (run (fun _ => initializeGame) env r)) =
      [ {| method := GET; url := js "http://localhost:8080/"; body := NoBody |};
        {| method := POST; url := js "http://localhost:8080/game/start";
           body := StartBody normal true |} ].
Proof.
  unfold healthy. intros H F.
  cbv beta iota zeta delta [thrownBy failure].
  unfold_controller.
  destruct (healthOutcome env) as [e | hr]; [ discriminate | ].
  rewrite H.
  destruct (startOutcome env) as [e | response].
  { eexists. split; [ reflexivity | split; reflexivity ]. }
  destruct (ok response) eqn:K.
  - destruct (json_payload response) as [e | g] eqn:P.
    + eexists. split; [ reflexivity | split; reflexivity ].
    + exfalso. simpl in F. destruct F as [F | [e F]]; congruence.
  - destruct (json_error response) as [e | [ | d]];
      (eexists; split; [ reflexivity | split; reflexivity ]).
Qed.

Lemma initializeGame_start_failure_example :
  exists e,
    thrownBy asciiLower (OpStartGame normal true) env_no_start emptyWorld
      = Some e /\
    fst (run (fun _ => initializeGame) env_no_start initialHooks) =
      {| gameState := gameState initialHooks;
         guessInput := guessInput initialHooks;
         loading := false; apiConnected := Some true;
         error := message_or e (js "Failed to start game");
         cluesUsed := cluesUsed initialHooks;
         currentClue := currentClue initialHooks |} /\
    requests (snd (run (fun _ => initializeGame) env_no_start initialHooks)) =
      [ {| method := GET; url := js "http://localhost:8080/"; body := NoBody |};
        {| method := POST; url := js "http://localhost:8080/game/start";
           body := StartBody normal true |} ].
Proof.
  apply (initializeGame_start_failure asciiLower env_no_start initialHooks
           emptyWorld).
  - reflexivity.
  - simpl. left. reflexivity.
Defined.

(** In that run the message shown is the [detail] of the refusal. *)
Example initializeGame_start_failure_message :
  error (fst (run (fun _ => initializeGame) env_no_start initialHooks)) =
    js "No words loaded".
Proof. reflexivity. Qed.

(* ================================================================== *)
(** ** Controller: guessing *)

Lemma handleGuess_success_run
  (toLowerCase : jsstring -> jsstring) (env : Env) (r : Hooks) (gs : GameState)
  (result : GuessResponse) (updatedState : GameState) :
  truthy_string (trim (guessInput r)) = true ->
  gameState r = Some gs ->
  loading r = false ->
  answers (guessOutcome env) result ->
  answers (stateOutcome env) updatedState ->
  run (handleGuess toLowerCase) env r =
    ({| gameState := Some updatedState; guessInput := []; loading := false;
        apiConnected := apiConnected r; error := [];
        cluesUsed := cluesUsed r; currentClue := currentClue r |},
     Fetch (requestOf toLowerCase (OpMakeGuess (game_id gs) (guessInput r)))
       :: Fetch (requestOf toLowerCase (OpGetGameState (game_id gs)))
       :: (if resp_is_correct result
           then [SetTimeout (CelebrationAlert (resp_guess_number result)) 500]
           else [])).
Proof.
  intros T G L [response [O [K P]]] [response' [O' [K' P']]].
  unfold_controller. rewrite T, G, L, O, K, P, O', K', P'.
  destruct (resp_is_correct result); reflexivity.
Qed.

(** X12.  A guess that the service accepts, followed by a refresh that
    succeeds: the game state becomes the refreshed one (the guess
    response itself is not merged in), the input and the error are
    emptied, [loading] is released, the clue cells are untouched; the
    guess request and then the refresh were sent, and a congratulation is
    scheduled 500 ms later, not shown at once, exactly when the response
    says the guess is correct. *)
Theorem handleGuess_success
  (toLowerCase : jsstring -> jsstring) (env : Env) (r : Hooks) (gs : GameState)
  (result : GuessResponse) (updatedState : GameState) :
  render r = GameScreen gs ->
  guessButtonDisabled r gs = false ->
  answers (guessOutcome env) result ->
  answers (stateOutcome env) updatedState ->
  run (handleGuess toLowerCase) env r =
    ({| gameState := Some updatedState; guessInput := []; loading := false;
        apiConnected := apiConnected r; error := [];
        cluesUsed := cluesUsed r; currentClue := currentClue r |},
     Fetch (requestOf toLowerCase (OpMakeGuess (game_id gs) (guessInput r)))
       :: Fetch (requestOf toLowerCase (OpGetGameState (game_id gs)))
       :: (if resp_is_correct result
           then [SetTimeout (CelebrationAlert (resp_guess_number result)) 500]
           else [])).
Proof.
  unfold render, guessButtonDisabled. intros R D A A'.
  apply orb_false_iff in D. destruct D as [D _].
  apply orb_false_iff in D. destruct D as [L T].
  apply negb_false_iff in T.
  apply handleGuess_success_run with (gs := gs); try assumption.
  destruct (apiConnected r) as [[ | ] | ]; try discriminate;
    destruct (gameState r); inversion R; reflexivity.
Qed.

Lemma handleGuess_success_win :
  run (handleGuess asciiLower) env_win ready_to_guess =
    ({| gameState := Some won_game; guessInput := []; loading := false;
        apiConnected := apiConnected ready_to_guess; error := [];
        cluesUsed := cluesUsed ready_to_guess;
        currentClue := currentClue ready_to_guess |},
     Fetch (requestOf asciiLower
              (OpMakeGuess (game_id tied_guesses) (guessInput ready_to_guess)))
       :: Fetch (requestOf asciiLower (OpGetGameState (game_id tied_guesses)))
       :: (if resp_is_correct winning_guess
           then [SetTimeout (CelebrationAlert (resp_guess_number winning_guess)) 500]
           else [])).
Proof.
  apply (handleGuess_success asciiLower env_win ready_to_guess tied_guesses
           winning_guess won_game).
  - reflexivity.
  - reflexivity.
  - eexists. split; [ reflexivity | split; reflexivity ].
  - eexists. split; [ reflexivity | split; reflexivity ].
Defined.

(** X13.  On the game screen the guess button is enabled only if a press
    sends the guess request: an enabled button never leads to the silent
    return of the handler. *)
Theorem enabled_guess_button_sends
  (toLowerCase : jsstring -> jsstring) (env : Env) (r : Hooks) (gs : GameState) :
  render r = GameScreen gs ->
  guessButtonDisabled r gs = false ->
  exists rest,
    requests (snd (run (handleGuess toLowerCase) env r)) =
      requestOf toLowerCase (OpMakeGuess (game_id gs) (guessInput r)) :: rest.
Proof.
  unfold render, guessButtonDisabled. intros R D.
  apply orb_false_iff in D. destruct D as [D _].
  apply orb_false_iff in D. destruct D as [L T].
  apply negb_false_iff in T.
  assert (gameState r = Some gs) as G.
  { destruct (apiConnected r) as [[ | ] | ]; try discriminate;
      destruct (gameState r); inversion R; reflexivity. }
  apply (handleGuess_sends toLowerCase env r gs); try assumption.
  destruct (forallb isWhiteSpace (guessInput r)) eqn:W; [ | reflexivity ].
  rewrite (trim_whitespace_only _ W) in T. discriminate.
Qed.

Lemma enabled_guess_button_sends_offline :
  exists rest,
    requests (snd (run (handleGuess asciiLower) offline ready_to_guess)) =
      requestOf asciiLower
        (OpMakeGuess (game_id tied_guesses) (guessInput ready_to_guess)) :: rest.
Proof.
  apply (enabled_guess_button_sends asciiLower offline ready_to_guess tied_guesses);
    reflexivity.
Defined.

(* ================================================================== *)
(** ** Controller: clues *)

Lemma game_screen_state (r : Hooks) (gs : GameState) :
  render r = GameScreen gs -> gameState r = Some gs.
Proof.
  unfold render. intro R.
  destruct (apiConnected r) as [[ | ] | ]; try discriminate;
    destruct (gameState r); inversion R; reflexivity.
Qed.

(** X14.  A clue request that fails (rejected, refused, or answered with
    an unreadable body) changes nothing but [error]: the clue counter and
    the clue on display stay as they were and no expiry timer is armed;
    one request was sent. *)
Theorem handleGetClue_failure (env : Env) (r : Hooks) (gs : GameState) :
  gameState r = Some gs ->
  loading r = false ->
  cluesUsed r < 3 ->
  request_fails (clueOutcome env) ->
  exists msg,
    run handleGetClue env r =
      (with_error msg r,
       [ Fetch {| method := POST;
                  url := js "http://localhost:8080/game/" ++ game_id gs ++ js "/clue";
                  body := NoBody |} ]).
Proof.
  intros G L C F. apply Z.leb_gt in C.
  unfold_controller. rewrite G, L, C.
  unfold with_error, with_loading.
  cbn [gameState guessInput loading apiConnected error cluesUsed currentClue].
  rewrite G, L.
  destruct (clueOutcome env) as [e | response]; [ eexists; reflexivity | ].
  destruct (ok response) eqn:K.
  - destruct (json_payload response) as [e | c] eqn:P;
      [ eexists; reflexivity | ].
    exfalso. simpl in F. destruct F as [F | [e F]]; congruence.
  - destruct (json_error response) as [e | [ | d]]; eexists; reflexivity.
Qed.

Lemma handleGetClue_failure_offline :
  exists msg,
    run handleGetClue offline two_clues_used =
      (with_error msg two_clues_used,
       [ Fetch {| method := POST;
                  url := js "http://localhost:8080/game/"
                           ++ game_id tied_guesses ++ js "/clue";
                  body := NoBody |} ]).
Proof.
  apply (handleGetClue_failure offline two_clues_used tied_guesses).
  - reflexivity.
  - reflexivity.
  - simpl. lia.
  - simpl. exact I.
Defined.

(** X15.  On the game screen a press of the enabled clue button always
    reaches the service: exactly one clue request is sent and the notice
    that all clues are used is never shown. *)
Theorem enabled_clue_button_sends (env : Env) (r : Hooks) (gs : GameState) :
  render r = GameScreen gs ->
  clueButtonDisabled r gs = false ->
  requests (snd (run handleGetClue env r)) =
    [ {| method := POST;
         url := js "http://localhost:8080/game/" ++ game_id gs ++ js "/clue";
         body := NoBody |} ] /\
  forallb (fun e => match e with Alert _ => false | _ => true end)
    (snd (run handleGetClue env r)) = true.
Proof.
  intros R D. apply game_screen_state in R.
  unfold clueButtonDisabled in D.
  apply orb_false_iff in D. destruct D as [D _].
  apply orb_false_iff in D. destruct D as [L C].
  unfold_controller. rewrite R, L, C.
  destruct (clueOutcome env) as [e | response]; [ split; reflexivity | ].
  destruct (ok response).
  - destruct (json_payload response) as [e | c]; split; reflexivity.
  - destruct (json_error response) as [e | [ | d]]; split; reflexivity.
Qed.

Lemma enabled_clue_button_sends_example :
  requests (snd (run handleGetClue (env_clue 3 (js "third")) two_clues_used)) =
    [ {| method := POST;
         url := js "http://localhost:8080/game/"
                  ++ game_id tied_guesses ++ js "/clue";
         body := NoBody |} ] /\
  forallb (fun e => match e with Alert _ => false | _ => true end)
    (snd (run handleGetClue (env_clue 3 (js "third")) two_clues_used)) = true.
Proof.
  apply (enabled_clue_button_sends (env_clue 3 (js "third")) two_clues_used
           tied_guesses); reflexivity.
Defined.

(* ================================================================== *)
(** ** Controller: giving up *)

(** X16.  Without a game, or when the player does not confirm,
    [handleGiveUp] sends nothing, shows no alert and changes no cell. *)
Theorem handleGiveUp_declined (env : Env) (r : Hooks) :
  gameState r = None \/ confirmAnswer env = false ->
  fst (run handleGiveUp env r) = r /\
  requests (snd (run handleGiveUp env r)) = [] /\
  forallb (fun e => match e with Alert _ => false | _ => true end)
    (snd (run handleGiveUp env r)) = true.
Proof.
  intros [G | C]; unfold_controller.
  - rewrite G. repeat split.
  - destruct (gameState r); [ rewrite C | ]; repeat split.
Qed.

Lemma handleGiveUp_declined_example :
  fst (run handleGiveUp offline two_clues_used) = two_clues_used /\
  requests (snd (run handleGiveUp offline two_clues_used)) = [] /\
  forallb (fun e => match e with Alert _ => false | _ => true end)
    (snd (run handleGiveUp offline two_clues_used)) = true.
Proof.
  apply (handleGiveUp_declined offline two_clues_used). right. reflexivity.
Defined.

(** X17.  When the confirmed give-up request fails, the error shown is
    the fixed message of the handler, whatever the exception says; the
    target word is not revealed, no new game is requested and every other
    cell is as before. *)
Theorem handleGiveUp_failure (env : Env) (r : Hooks) (gs : GameState) :
  gameState r = Some gs ->
  confirmAnswer env = true ->
  request_fails (giveUpOutcome env) ->
  run handleGiveUp env r =
    (with_error (js "שגיאה בוויתור") r,
     [ Confirm (js "בטוח שאתה רוצה לוותר?");
       Fetch {| method := POST;
                url := js "http://localhost:8080/game/" ++ game_id gs
                         ++ js "/give-up";
                body := NoBody |} ]).
Proof.
  intros G C F. unfold_controller. rewrite G, C.
  destruct (giveUpOutcome env) as [e | response]; [ reflexivity | ].
  destruct (ok response) eqn:K.
  - destruct (json_payload response) as [e | c] eqn:P; [ reflexivity | ].
    exfalso. simpl in F. destruct F as [F | [e F]]; congruence.
  - destruct (json_error response) as [e | [ | d]]; reflexivity.
Qed.

Lemma handleGiveUp_failure_offline :
  run handleGiveUp env_give_up_offline two_clues_used =
    (with_error (js "שגיאה בוויתור") two_clues_used,
     [ Confirm (js "בטוח שאתה רוצה לוותר?");
       Fetch {| method := POST;
                url := js "http://localhost:8080/game/" ++ game_id tied_guesses
                         ++ js "/give-up";
                body := NoBody |} ]).
Proof.
  apply (handleGiveUp_failure env_give_up_offline two_clues_used tied_guesses).
  - reflexivity.
  - reflexivity.
  - simpl. exact I.
Defined.

(** X18.  A confirmed give-up that the service accepts shows the target
    word in an alert and then requests a new normal daily game, in that
    order; [loading] ends released, and the clue counter and the clue on
    display are carried over unchanged into what follows.  If the new game
    arrives it replaces the game state and empties the input; if it does
    not, the old game stays. *)
Theorem handleGiveUp_success (env : Env) (r : Hooks) (gs : GameState)
  (result : GiveUpResponse) :
  gameState r = Some gs ->
  confirmAnswer env = true ->
  answers (giveUpOutcome env) result ->
  snd (run handleGiveUp env r) =
    [ Confirm (js "בטוח שאתה רוצה לוותר?");
      Fetch {| method := POST;
               url := js "http://localhost:8080/game/" ++ game_id gs
                        ++ js "/give-up";
               body := NoBody |};
      Alert (js "המילה הייתה: " ++ giveup_target_word result);
      Fetch {| method := POST; url := js "http://localhost:8080/game/start";
               body := StartBody normal true |} ] /\
  loading (fst (run handleGiveUp env r)) = false /\
  cluesUsed (fst (run handleGiveUp env r)) = cluesUsed r /\
  currentClue (fst (run handleGiveUp env r)) = currentClue r /\
  (forall newGame,
     answers (startOutcome env) newGame ->
     gameState (fst (run handleGiveUp env r)) = Some newGame /\
     guessInput (fst (run handleGiveUp env r)) = []) /\
  (request_fails (startOutcome env) ->
   gameState (fst (run handleGiveUp env r)) = Some gs).
Proof.
  intros G C [response [O [K P]]]. unfold_controller.
  rewrite G, C, O, K, P.
  destruct (startOutcome env) as [e | response'] eqn:O';
    [ | destruct (ok response') eqn:K';
        [ destruct (json_payload response') as [e | g] eqn:P'
        | destruct (json_error response') as [e | [ | d]] ] ];
    (split; [ reflexivity | ]);
    (split; [ reflexivity | ]);
    (split; [ reflexivity | ]);
    (split; [ reflexivity | ]);
    (split;
     [ intros newGame [x [Ox [Kx Px]]];
       try discriminate; inversion Ox; subst x;
       try congruence;
       cbn; split; congruence
     | intro F; cbn;
       try exact G;
       simpl in F; destruct F as [F | [e' F]]; congruence ]).
Qed.

Lemma handleGiveUp_success_example :
  snd (run handleGiveUp env_give_up two_clues_used) =
    [ Confirm (js "בטוח שאתה רוצה לוותר?");
      Fetch {| method := POST;
               url := js "http://localhost:8080/game/" ++ game_id tied_guesses
                        ++ js "/give-up";
               body := NoBody |};
      Alert (js "המילה הייתה: " ++ js "dog");
      Fetch {| method := POST; url := js "http://localhost:8080/game/start";
               body := StartBody normal true |} ] /\
  loading (fst (run handleGiveUp env_give_up two_clues_used)) = false /\
  cluesUsed (fst (run handleGiveUp env_give_up two_clues_used)) =
    cluesUsed two_clues_used /\
  currentClue (fst (run handleGiveUp env_give_up two_clues_used)) =
    currentClue two_clues_used /\
  (forall newGame,
     answers (startOutcome env_give_up) newGame ->
     gameState (fst (run handleGiveUp env_give_up two_clues_used)) = Some newGame /\
     guessInput (fst (run handleGiveUp env_give_up two_clues_used)) = []) /\
  (request_fails (startOutcome env_give_up) ->
   gameState (fst (run handleGiveUp env_give_up two_clues_used)) =
     Some tied_guesses).
Proof.
  apply (handleGiveUp_success env_give_up two_clues_used tied_guesses
           {| giveup_game_id := js "g1"; giveup_target_word := js "dog";
              giveup_message := js "Better luck next time" |}).
  - reflexivity.
  - reflexivity.
  - eexists. split; [ reflexivity | split; reflexivity ].
Defined.

(* ================================================================== *)
(** ** The screen over time *)

Ltac split_all :=
  repeat match goal with
         | |- context [healthOutcome ?e] => destruct (healthOutcome e)
         | |- context [startOutcome ?e] => destruct (startOutcome e)
         | |- context [guessOutcome ?e] => destruct (guessOutcome e)
         | |- context [stateOutcome ?e] => destruct (stateOutcome e)
         | |- context [giveUpOutcome ?e] => destruct (giveUpOutcome e)
         | |- context [clueOutcome ?e] => destruct (clueOutcome e)
         | |- context [confirmAnswer ?e] => destruct (confirmAnswer e)
         | |- context [ok ?x] => destruct (ok x)
         | |- context [json_error ?x] => destruct (json_error x) as [? | [ | ?]]
         | |- context [json_payload ?x] => destruct (json_payload x)
         | |- context [resp_is_correct ?x] => destruct (resp_is_correct x)
         end.

Lemma initializeGame_releases (env : Env) (r : Hooks) :
  loading r = false ->
  loading (fst (run (fun _ => initializeGame) env r)) = false.
Proof. intro L. unfold_controller. split_all; cbn; auto. Qed.

Lemma handleGuess_releases
  (toLowerCase : jsstring -> jsstring) (env : Env) (r : Hooks) :
  loading r = false ->
  loading (fst (run (handleGuess toLowerCase) env r)) = false.
Proof.
  intro L. unfold_controller.
  destruct (truthy_string (trim (guessInput r))); [ | exact L ].
  destruct (gameState r); [ | exact L ].
  rewrite L. split_all; reflexivity.
Qed.

Lemma handleGetClue_releases (env : Env) (r : Hooks) :
  loading r = false -> loading (fst (run handleGetClue env r)) = false.
Proof.
  intro L. unfold_controller.
  destruct (gameState r); [ | exact L ].
  rewrite L. destruct (3 <=? cluesUsed r); [ exact L | ].
  split_all; reflexivity.
Qed.

Lemma handleGiveUp_releases (env : Env) (r : Hooks) :
  loading r = false -> loading (fst (run handleGiveUp env r)) = false.
Proof.
  intro L. unfold_controller.
  destruct (gameState r); [ | exact L ].
  split_all; cbn; auto.
Qed.

Lemma fireAll_frame (ts : list Timer) (h : Hooks) :
  loading (fst (fireAll ts h)) = loading h /\
  gameState (fst (fireAll ts h)) = gameState h /\
  requests (snd (fireAll ts h)) = [].
Proof.
  unfold fireAll.
  assert (forall acc : Hooks * list Effect,
            loading (fst (fold_left
              (fun acc tm => let '(h', es) := fire (callback tm) (fst acc) in
                             (h', snd acc ++ es)) ts acc)) = loading (fst acc) /\
            gameState (fst (fold_left
              (fun acc tm => let '(h', es) := fire (callback tm) (fst acc) in
                             (h', snd acc ++ es)) ts acc)) = gameState (fst acc) /\
            (requests (snd acc) = [] ->
             requests (snd (fold_left
               (fun acc tm => let '(h', es) := fire (callback tm) (fst acc) in
                              (h', snd acc ++ es)) ts acc)) = [])) as H.
  { induction ts as [ | tm ts IH ]; intro acc; [ auto | ].
    cbn [fold_left].
    destruct (IH (let '(h', es) := fire (callback tm) (fst acc) in
                  (h', snd acc ++ es))) as [IL [IG IR]].
    rewrite IL, IG. destruct acc as [h0 es0]. cbn [fst snd].
    destruct (callback tm); cbn [fire fst snd] in *.
    - repeat split; try reflexivity. intro E. apply IR.
      unfold requests in *. rewrite flat_map_app, E. reflexivity.
    - repeat split; try reflexivity. intro E. apply IR.
      rewrite app_nil_r. exact E. }
  destruct (H (h, [])) as [A [B C]]. repeat split; auto.
Qed.

(** X19.  Once a handler has finished, [loading] is released: whatever
    the player does and whatever the service answers, no sequence of
    actions leaves the screen with [loading] set. *)
Theorem loading_released
  (toLowerCase : jsstring -> jsstring) (actions : list Action) :
  loading (ui (play toLowerCase actions)) = false.
Proof.
  unfold play.
  assert (forall sys, loading (ui sys) = false ->
                      loading (ui (fold_left (step toLowerCase) actions sys)) = false)
    as H; [ | apply H; reflexivity ].
  induction actions as [ | a actions IH ]; intros sys L; [ exact L | ].
  cbn [fold_left]. apply IH.
  destruct a as [env | env | text | env | env | env | dt];
    cbn [step]; unfold dispatch.
  - pose proof (initializeGame_releases env (ui sys) L) as K.
    destruct (run (fun _ => initializeGame) env (ui sys)); exact K.
  - pose proof (initializeGame_releases env (ui sys) L) as K.
    destruct (run (fun _ => initializeGame) env (ui sys)); exact K.
  - exact L.
  - pose proof (handleGuess_releases toLowerCase env (ui sys) L) as K.
    destruct (run (handleGuess toLowerCase) env (ui sys)); exact K.
  - pose proof (handleGetClue_releases env (ui sys) L) as K.
    destruct (run handleGetClue env (ui sys)); exact K.
  - pose proof (handleGiveUp_releases env (ui sys) L) as K.
    destruct (run handleGiveUp env (ui sys)); exact K.
  - unfold elapse.
    destruct (fireAll_frame
                (Array_sort (fun a b => inject_Z (due a - due b))
                   (filter (fun tm => due tm <=? now sys + dt) (timers sys)))
                (ui sys)) as [K _].
    destruct (fireAll _ (ui sys)). cbn [ui fst] in *. congruence.
Qed.

(** X20.  A clue revealed while no timer is pending stays on display
    for 10000 ms and is gone from then on: after waiting [dt] the clue
    text is still the revealed one if [dt < 10000] (its timer pending)
    and empty otherwise (no timer left). *)
Theorem clue_visible_until_expiry
  (toLowerCase : jsstring -> jsstring) (sys : System) (env : Env)
  (gs : GameState) (c : ClueResponse) (dt : Z) :
  render (ui sys) = GameScreen gs ->
  clueButtonDisabled (ui sys) gs = false ->
  answers (clueOutcome env) c ->
  timers sys = [] ->
  currentClue (ui (step toLowerCase (step toLowerCase sys (PressClue env)) (Wait dt))) =
    (if dt <? 10000 then clue c else []) /\
  cluesUsed (ui (step toLowerCase (step toLowerCase sys (PressClue env)) (Wait dt))) =
    clue_number c /\
  timers (step toLowerCase (step toLowerCase sys (PressClue env)) (Wait dt)) =
    (if dt <? 10000
     then [ {| due := now sys + 10000; callback := HideClue |} ]
     else []).
Proof.
  intros R D [response [O [K P]]] T.
  apply game_screen_state in R.
  unfold clueButtonDisabled in D.
  apply orb_false_iff in D. destruct D as [D _].
  apply orb_false_iff in D. destruct D as [L C]. apply Z.leb_gt in C.
  cbn [step]. unfold dispatch.
  rewrite (handleGetClue_reveal env (ui sys) gs response c R L C O K P).
  rewrite T. unfold elapse.
  cbn [timers now ui armed flat_map app filter due].
  replace (now sys + 10000 <=? now sys + dt) with (negb (dt <? 10000)).
  2: { destruct (dt <? 10000) eqn:E; symmetry; cbn [negb].
       - apply Z.ltb_lt in E. apply Z.leb_gt. lia.
       - apply Z.ltb_ge in E. apply Z.leb_le. lia. }
  destruct (dt <? 10000); cbn; repeat split.
Qed.

Lemma clue_visible_until_expiry_9999 :
  currentClue (ui (step asciiLower
                     (step asciiLower started (PressClue (env_clue 1 (js "first"))))
                     (Wait 9999))) = js "first" /\
  cluesUsed (ui (step asciiLower
                   (step asciiLower started (PressClue (env_clue 1 (js "first"))))
                   (Wait 9999))) = 1 /\
  timers (step asciiLower
            (step asciiLower started (PressClue (env_clue 1 (js "first"))))
            (Wait 9999)) = [ {| due := 10000; callback := HideClue |} ].
Proof.
  apply (clue_visible_until_expiry asciiLower started (env_clue 1 (js "first"))
           fresh_game
           {| clue_game_id := js "g1"; clue := js "first"; clue_number := 1;
              remaining_clues := 2 |} 9999).
  - reflexivity.
  - reflexivity.
  - eexists. split; [ reflexivity | split; reflexivity ].
  - reflexivity.
Defined.

(** X21.  After a correct guess made while no timer is pending, the
    congratulation is not shown by the handler: it appears as an alert
    naming the guess number once 500 ms have passed, and showing it
    changes no cell. *)
Theorem celebration_after_500ms
  (toLowerCase : jsstring -> jsstring) (sys : System) (env : Env)
  (gs : GameState) (result : GuessResponse) (updatedState : GameState) (dt : Z) :
  render (ui sys) = GameScreen gs ->
  guessButtonDisabled (ui sys) gs = false ->
  answers (guessOutcome env) result ->
  answers (stateOutcome env) updatedState ->
  resp_is_correct result = true ->
  timers sys = [] ->
  forallb (fun e => match e with Alert _ => false | _ => true end)
    (snd (run (handleGuess toLowerCase) env (ui sys))) = true /\
  log (step toLowerCase (step toLowerCase sys (SubmitGuess env)) (Wait dt)) =
    log (step toLowerCase sys (SubmitGuess env)) ++
    (if dt <? 500 then []
     else [ Alert (js "🎉 מצאת את המילה ב-"
                     ++ intToString (resp_guess_number result)
                     ++ js " ניחושים!") ]) /\
  ui (step toLowerCase (step toLowerCase sys (SubmitGuess env)) (Wait dt)) =
    ui (step toLowerCase sys (SubmitGuess env)).
Proof.
  intros R D A A' W T.
  pose proof (game_screen_state _ _ R) as G.
  unfold guessButtonDisabled in D.
  apply orb_false_iff in D. destruct D as [D _].
  apply orb_false_iff in D. destruct D as [L N].
  apply negb_false_iff in N.
  cbn [step]. unfold dispatch.
  rewrite (handleGuess_success_run toLowerCase env (ui sys) gs result
             updatedState N G L A A').
  rewrite W, T. split; [ reflexivity | ].
  unfold elapse.
  cbn [timers now ui armed flat_map app filter due log].
  replace (now sys + 500 <=? now sys + dt) with (negb (dt <? 500)).
  2: { destruct (dt <? 500) eqn:E; symmetry; cbn [negb].
       - apply Z.ltb_lt in E. apply Z.leb_gt. lia.
       - apply Z.ltb_ge in E. apply Z.leb_le. lia. }
  destruct (dt <? 500); cbn; rewrite ?app_nil_r; split; reflexivity.
Qed.

Lemma celebration_after_500ms_example :
  forallb (fun e => match e with Alert _ => false | _ => true end)
    (snd (run (handleGuess asciiLower) env_win (ui started))) = true /\
  log (step asciiLower (step asciiLower started (SubmitGuess env_win)) (Wait 500)) =
    log (step asciiLower started (SubmitGuess env_win)) ++
    [ Alert (js "🎉 מצאת את המילה ב-" ++ intToString 3 ++ js " ניחושים!") ] /\
  ui (step asciiLower (step asciiLower started (SubmitGuess env_win)) (Wait 500)) =
    ui (step asciiLower started (SubmitGuess env_win)).
Proof.
  apply (celebration_after_500ms asciiLower started env_win fresh_game
           winning_guess won_game 500).
  - reflexivity.
  - reflexivity.
  - eexists. split; [ reflexivity | split; reflexivity ].
  - eexists. split; [ reflexivity | split; reflexivity ].
  - reflexivity.
  - reflexivity.
Defined.

Lemma requests_app (es es' : list Effect) :
  requests (es ++ es') = requests es ++ requests es'.
Proof. unfold requests. apply flat_map_app. Qed.

Lemma step_without_game
  (toLowerCase : jsstring -> jsstring) (sys : System) (a : Action) :
  gameState (ui sys) = None ->
  in_game_action a = true ->
  gameState (ui (step toLowerCase sys a)) = None /\
  requests (log (step toLowerCase sys a)) = requests (log sys).
Proof.
  intros G I.
  destruct a as [env | env | text | env | env | env | dt];
    try discriminate; cbn [step]; unfold dispatch.
  - split; [ exact G | reflexivity ].
  - unfold_controller. rewrite G.
    destruct (truthy_string (trim (guessInput (ui sys))));
      cbn [ui log armed flat_map]; rewrite app_nil_r; auto.
  - unfold_controller. rewrite G.
    cbn [ui log armed flat_map]. rewrite app_nil_r. auto.
  - unfold_controller. rewrite G.
    cbn [ui log armed flat_map]. rewrite app_nil_r. auto.
  - unfold elapse.
    destruct (fireAll_frame
                (Array_sort (fun a b => inject_Z (due a - due b))
                   (filter (fun tm => due tm <=? now sys + dt) (timers sys)))
                (ui sys)) as [_ [K R]].
    destruct (fireAll _ (ui sys)) as [h es]. cbn [ui log fst snd] in *.
    split; [ congruence | ].
    rewrite requests_app, R. apply app_nil_r.
Qed.

(** X22.  As long as there is no game state (before the first game has
    arrived, or after a mount that could not reach the service), typing,
    submitting a guess, asking for a clue, giving up and waiting send no
    request at all and leave the screen without a game; only mounting or
    the retry button can get one. *)
Theorem no_game_no_requests
  (toLowerCase : jsstring -> jsstring) (sys : System) (actions : list Action) :
  gameState (ui sys) = None ->
  forallb in_game_action actions = true ->
  gameState (ui (fold_left (step toLowerCase) actions sys)) = None /\
  requests (log (fold_left (step toLowerCase) actions sys)) = requests (log sys).
Proof.
  revert sys. induction actions as [ | a actions IH ]; intros sys G F.
  - split; [ exact G | reflexivity ].
  - cbn [forallb] in F. apply andb_true_iff in F. destruct F as [Fa F].
    destruct (step_without_game toLowerCase sys a G Fa) as [G' R'].
    cbn [fold_left].
    destruct (IH (step toLowerCase sys a) G' F) as [G'' R''].
    split; [ exact G'' | congruence ].
Qed.

Lemma no_game_no_requests_unreachable :
  gameState (ui (fold_left (step asciiLower) fiddling unreachable)) = None /\
  requests (log (fold_left (step asciiLower) fiddling unreachable)) =
    requests (log unreachable).
Proof.
  apply (no_game_no_requests asciiLower unreachable fiddling); reflexivity.
Defined.


(* ================================================================== *)
(** ** A guess while the give-up request is in flight *)

(** The suspended state is a prefix of the run of the whole handler. *)
Lemma handleGiveUp_awaiting_prefix
  (env : Env) (r h : Hooks) (es : list Effect) :
  handleGiveUp_awaiting env r = Some (h, es) ->
  h = r /\ exists rest, snd (run handleGiveUp env r) = es ++ rest.
Proof.
  unfold handleGiveUp_awaiting. intro A. unfold_controller.
  destruct (gameState r) as [gs | ]; [ | discriminate ].
  destruct (confirmAnswer env); [ | discriminate ].
  inversion A; subst. split; [ reflexivity | ].
  destruct (giveUpOutcome env) as [e | response];
    [ eexists; reflexivity | ].
  destruct (ok response).
  - destruct (json_payload response) as [e | result];
      [ eexists; reflexivity | ].
    split_all; eexists; reflexivity.
  - destruct (json_error response) as [e | [ | d]]; eexists; reflexivity.
Qed.

Lemma handleGetClue_awaiting_prefix
  (env : Env) (r h : Hooks) (es : list Effect) :
  handleGetClue_awaiting r = Some (h, es) ->
  loading h = true /\ exists rest, snd (run handleGetClue env r) = es ++ rest.
Proof.
  unfold handleGetClue_awaiting. intro A. unfold_controller.
  destruct (gameState r) as [gs | ]; [ | discriminate ].
  destruct (loading r); [ discriminate | ].
  destruct (3 <=? cluesUsed r); [ discriminate | ].
  inversion A; subst. split; [ reflexivity | ].
  split_all; eexists; reflexivity.
Qed.

(** While a clue request is in flight a guess is refused: the handler
    set [loading] before it sent the request. *)
Lemma clue_in_flight_blocks_guess
  (toLowerCase : jsstring -> jsstring) (env : Env) (r h : Hooks)
  (es : list Effect) :
  handleGetClue_awaiting r = Some (h, es) ->
  run (handleGuess toLowerCase) env h = (h, []).
Proof.
  unfold handleGetClue_awaiting. intro A.
  destruct (gameState r) as [gs | ] eqn:G; [ | discriminate ].
  destruct (loading r); [ discriminate | ].
  destruct (3 <=? cluesUsed r); [ discriminate | ].
  inversion A; subst. unfold_controller.
  cbn [with_error with_loading gameState guessInput loading].
  rewrite G.
  destruct (truthy_string (trim (guessInput r))); reflexivity.
Qed.

(** While the give-up request is in flight a guess is not refused: the
    cells are those of before the press, so an enabled guess button stays
    enabled and a press sends the guess. *)
Lemma give_up_in_flight_does_not_block_guess
  (toLowerCase : jsstring -> jsstring) (env env' : Env) (r h : Hooks)
  (gs : GameState) (es : list Effect) :
  render r = GameScreen gs ->
  guessButtonDisabled r gs = false ->
  handleGiveUp_awaiting env r = Some (h, es) ->
  guessButtonDisabled h gs = false /\
  exists rest,
    requests (snd (run (handleGuess toLowerCase) env' h)) =
      requestOf toLowerCase (OpMakeGuess (game_id gs) (guessInput r)) :: rest.
Proof.
  intros R D A.
  destruct (handleGiveUp_awaiting_prefix env r h es A) as [E _]. subst h.
  split; [ exact D | ].
  unfold guessButtonDisabled in D.
  apply orb_false_iff in D. destruct D as [D _].
  apply orb_false_iff in D. destruct D as [L T].
  apply negb_false_iff in T.
  apply (handleGuess_sends toLowerCase env' r gs).
  - destruct (forallb isWhiteSpace (guessInput r)) eqn:W; [ | reflexivity ].
    rewrite (trim_whitespace_only _ W) in T. discriminate.
  - apply game_screen_state, R.
  - exact L.
Qed.

(** C5: the run on which the code departs from the claim.  A word is
    typed and the player confirms the give-up: the give-up request is
    out, and since [handleGiveUp] sets no flag before awaiting it the
    cells are unchanged and the guess button is still enabled.  A press
    of it is not a no-op: the guess request and the refresh are sent and
    the game state is replaced, all with the give-up still in flight. *)
Lemma guess_sent_while_give_up_in_flight :
  handleGiveUp_awaiting env_confirm_give_up ready_to_guess =
    Some (ready_to_guess,
          [ Confirm (js "בטוח שאתה רוצה לוותר?");
            Fetch {| method := POST;
                     url := js "http://localhost:8080/game/g1/give-up";
                     body := NoBody |} ]) /\
  guessButtonDisabled ready_to_guess tied_guesses = false /\
  run (handleGuess asciiLower) env_confirm_give_up ready_to_guess =
    ({| gameState := Some won_game; guessInput := []; loading := false;
        apiConnected := Some true; error := []; cluesUsed := 0;
        currentClue := [] |},
     [ Fetch {| method := POST; url := js "http://localhost:8080/game/guess";
                body := GuessBody (js "g1") (js "dog") |};
       Fetch {| method := GET; url := js "http://localhost:8080/game/g1";
                body := NoBody |};
       SetTimeout (CelebrationAlert 3) 500 ]).
Proof. split; [ reflexivity | split; reflexivity ]. Qed.
